(** * XEP-0030 service discovery plugin: handler registry and dispatch

    A shallow embedding of [sleekxmpp/plugins/xep_0030/disco.py].

    The plugin object ([self]) together with the parts of its
    surroundings that the plugin touches (the stream it sends replies
    on, the event bus, the storage the handlers work over) is one
    record [xep_0030]; every method is a computation in a state and
    error monad over that record.  Python's [None] is [None] of an
    [option], a raised exception is [Raise]. *)

From stdpp Require Import gmap strings list fin_maps.

Open Scope string_scope.
Open Scope list_scope.

(** ** Exceptions and results *)

Inductive exn : Type :=
| KeyError (key : string)        (* d[k] on a missing key *)
| TypeError (what : string)      (* e.g. subscripting None *)
| AttributeError (attr : string) (* missing method on an object *)
| Raised (name : string).        (* anything a handler raises itself *)

Inductive result (A : Type) : Type :=
| Ok (a : A)
| Raise (e : exn).
Arguments Ok {A} a.
Arguments Raise {A} e.

(** ** Stanzas

    The stanza classes ([Iq], [DiscoInfo], [DiscoItems], [JID]) are
    imported by disco.py, their code is not part of it. *)

(** Modelled from the spec: an identity is the tuple
    (category, type, language, name), language and name optional. *)
Record identity : Type := Identity {
  id_category : string;
  id_type : string;
  id_lang : option string;
  id_name : option string
}.

(** Modelled from the spec: an info result carries the node it
    describes, its identities and its features (insertion order kept). *)
Record DiscoInfo : Type := mkDiscoInfo {
  info_node : string;
  info_identities : list identity;
  info_features : list string
}.

(** Modelled from the spec: an item is (item-address, item-node, name). *)
Record DiscoItems : Type := mkDiscoItems {
  items_node : string;
  items_items : list (string * string * string)
}.

Inductive stanza : Type :=
| SInfo (info : DiscoInfo)
| SItems (items : DiscoItems).

(** Modelled from the spec: an address in its two canonical forms. *)
Record JID : Type := mkJID { full : string; bare : string }.

(** An [Iq] stanza: [iq_payload] is the list of child elements. *)
Record Iq : Type := mkIq {
  iq_type : string;
  iq_from : JID;
  iq_to : JID;
  iq_id : string;
  iq_payload : list stanza
}.

(** ** Python values that cross the handler interface *)

(** Keyword-argument values. *)
Inductive pyarg : Type :=
| PNone
| PStr (s : string)
| PBool (b : bool).

(** The third argument of a handler: the keyword dictionary of a local
    call, or the stanza of an inbound query. *)
Inductive data : Type :=
| DKwargs (kwargs : gmap string pyarg)
| DIq (iq : Iq).

(** What a handler returns. *)
Inductive value : Type :=
| VNone
| VInfo (info : DiscoInfo)
| VItems (items : DiscoItems).

(** What a query method returns: the value computed locally, or the
    request that was handed to the stream (whose answer is the
    stream's business). *)
Record disco_request : Type := mkRequest {
  req_query : string;          (* "disco_info" or "disco_items" *)
  req_from : pyarg;
  req_to : string;
  req_type : string;
  req_node : string;
  req_timeout : pyarg;
  req_block : pyarg;
  req_callback : pyarg;
  req_iterate : bool           (* handed to xep_0059's iterate *)
}.

Inductive query_result : Type :=
| Local (v : value)
| Sent (req : disco_request).

Section Plugin.

(** The storage the handlers work over (for the built-in handlers, the
    in-memory tables of [StaticDisco]). *)
Context {B : Type}.

(** Truth value of a stanza object in a boolean context ([if info:]);
    decided by the stanza base class, which is not in disco.py. *)
Variable stanza_bool : stanza -> bool.

(** A handler is called as [handler(jid, node, data)]; it may read and
    change the storage, return a value or raise.  A handler is a
    function object, which counts as true wherever the plugin tests it;
    handlers are taken not to reach back into the plugin's own tables. *)
Definition handler : Type :=
  string -> string -> data -> B -> result value * B.

(** [self._handlers[op]]: the three tiers of one operation.  A stored
    [None] is a key that is present and holds Python's [None]. *)
Record tiers : Type := mkTiers {
  t_global : option handler;
  t_jid : gmap string (option handler);
  t_node : gmap (string * string) (option handler)
}.

Record xep_0030 : Type := mkPlugin {
  is_component : bool;                      (* self.xmpp.is_component *)
  boundjid : JID;                           (* self.xmpp.boundjid *)
  has_xep_0059 : bool;                      (* truth of self.xmpp['xep_0059'] *)
  _disco_ops : list string;
  default_handlers : gmap string handler;
  _handlers : gmap string tiers;
  storage : B;                              (* what the handlers work over *)
  sent : list Iq;                           (* stanzas given to iq.send() *)
  events : list (string * Iq)               (* self.xmpp.event(name, iq) *)
}.

Definition set_default_handlers (f : gmap string handler -> gmap string handler)
    (st : xep_0030) : xep_0030 :=
  mkPlugin (is_component st) (boundjid st) (has_xep_0059 st) (_disco_ops st)
           (f (default_handlers st)) (_handlers st) (storage st) (sent st)
           (events st).

Definition set_handlers (f : gmap string tiers -> gmap string tiers)
    (st : xep_0030) : xep_0030 :=
  mkPlugin (is_component st) (boundjid st) (has_xep_0059 st) (_disco_ops st)
           (default_handlers st) (f (_handlers st)) (storage st) (sent st)
           (events st).

Definition set_storage (b : B) (st : xep_0030) : xep_0030 :=
  mkPlugin (is_component st) (boundjid st) (has_xep_0059 st) (_disco_ops st)
           (default_handlers st) (_handlers st) b (sent st) (events st).

Definition set_sent (f : list Iq -> list Iq) (st : xep_0030) : xep_0030 :=
  mkPlugin (is_component st) (boundjid st) (has_xep_0059 st) (_disco_ops st)
           (default_handlers st) (_handlers st) (storage st) (f (sent st))
           (events st).

Definition set_events (f : list (string * Iq) -> list (string * Iq))
    (st : xep_0030) : xep_0030 :=
  mkPlugin (is_component st) (boundjid st) (has_xep_0059 st) (_disco_ops st)
           (default_handlers st) (_handlers st) (storage st) (sent st)
           (f (events st)).

(** ** The monad of methods *)

Definition M (A : Type) : Type := xep_0030 -> result A * xep_0030.

Definition ret {A} (a : A) : M A := fun st => (Ok a, st).
Definition raise {A} (e : exn) : M A := fun st => (Raise e, st).
Definition bind {A C} (m : M A) (k : A -> M C) : M C :=
  fun st => match m st with
            | (Ok a, st') => k a st'
            | (Raise e, st') => (Raise e, st')
            end.
Definition get : M xep_0030 := fun st => (Ok st, st).
Definition modify (f : xep_0030 -> xep_0030) : M unit := fun st => (Ok tt, f st).

Notation "x <- m ;; k" := (bind m (fun x => k))
  (at level 100, m at next level, right associativity).
Notation "m ;;; k" := (bind m (fun _ => k))
  (at level 100, right associativity).

(** [for x in l: body x] *)
Fixpoint for_each {A} (l : list A) (body : A -> M unit) : M unit :=
  match l with
  | [] => ret tt
  | x :: l' => body x ;;; for_each l' body
  end.

(** [d[k]] on a dictionary: [KeyError] when the key is missing. *)
Definition getitem {V} (d : gmap string V) (k : string) : M V :=
  match d !! k with
  | Some v => ret v
  | None => raise (KeyError k)
  end.

(** [handler(jid, node, data)] *)
Definition call (h : handler) (jid node : string) (d : data) : M value :=
  fun st => let '(r, b) := h jid node d (storage st) in (r, set_storage b st).

(** ** Initialisation *)

Definition disco_ops : list string :=
  ["get_info"; "set_identities"; "set_features";
   "get_items"; "set_items"; "del_items";
   "add_identity"; "del_identity"; "add_feature";
   "del_feature"; "add_item"; "del_item";
   "del_identities"; "del_features"].

Definition _add_disco_op (op : string) (default_handler : handler) : M unit :=
  modify (set_default_handlers <[op := default_handler]>) ;;;
  modify (set_handlers
            <[op := mkTiers (Some default_handler) ∅ ∅]>).

(** The state before [plugin_init] has filled the tables; [static] is
    [getattr(self.static, op)]. *)
Definition blank (component : bool) (me : JID) (xep_0059 : bool) (b : B)
  : xep_0030 :=
  mkPlugin component me xep_0059 disco_ops ∅ ∅ b [] [].

Definition plugin_init (static : string -> handler) : M unit :=
  st <- get ;;
  for_each (_disco_ops st) (fun op => _add_disco_op op (static op)).

(** ** Registry *)

Definition own_jid (st : xep_0030) : string :=
  if is_component st then full (boundjid st) else bare (boundjid st).

Definition set_global (h : option handler) (e : tiers) : tiers :=
  mkTiers h (t_jid e) (t_node e).
Definition set_jid (jid : string) (h : option handler) (e : tiers) : tiers :=
  mkTiers (t_global e) (<[jid := h]> (t_jid e)) (t_node e).
Definition set_node (jid node : string) (h : option handler) (e : tiers)
  : tiers :=
  mkTiers (t_global e) (t_jid e) (<[(jid, node) := h]> (t_node e)).

(** [self._handlers[htype][tier]... = handler]: the inner dictionaries
    are objects shared with the table, so the assignment is an update
    of the entry in place. *)
Definition assign (htype : string) (f : tiers -> tiers) : M unit :=
  st <- get ;;
  e <- getitem (_handlers st) htype ;;
  modify (set_handlers <[htype := f e]>).

Definition set_node_handler (htype : string) (jid node : option string)
    (h : option handler) : M unit :=
  st <- get ;;
  if negb (bool_decide (htype ∈ _disco_ops st)) then ret tt
  else match jid, node with
       | None, None => assign htype (set_global h)
       | Some jid, None => assign htype (set_jid jid h)
       | None, Some node => assign htype (set_node (own_jid st) node h)
       | Some jid, Some node => assign htype (set_node jid node h)
       end.

Definition del_node_handler (htype : string) (jid node : option string)
  : M unit :=
  set_node_handler htype jid node None.

(** The body of the loop of [restore_defaults]. *)
Definition restore_op (jid node : option string) (op : string) : M unit :=
  del_node_handler op jid node ;;;
  st <- get ;;
  dflt <- getitem (default_handlers st) op ;;
  set_node_handler op jid node (Some dflt).

Definition restore_defaults (jid node : option string)
    (handlers : option (list string)) : M unit :=
  st <- get ;;
  let handlers := match handlers with
                  | None => _disco_ops st
                  | Some l => l
                  end in
  for_each handlers (restore_op jid node).

(** ** Dispatch *)

Definition _run_node_handler (htype : string) (jid node : option string)
    (d : data) : M value :=
  st <- get ;;
  let jid := match jid with None => own_jid st | Some j => j end in
  let node := match node with None => "" | Some n => n end in
  e <- getitem (_handlers st) htype ;;
  match t_node e !! (jid, node) with
  | Some (Some h) => call h jid node d
  | _ =>
    match t_jid e !! jid with
    | Some (Some h) => call h jid node d
    | _ =>
      match t_global e with
      | Some h => call h jid node d
      | None => ret VNone
      end
    end
  end.

(** ** Stanza interfaces used by the dispatcher *)

(** The namespace of disco#info ([info.namespace]). *)
Definition namespace : string := "http://jabber.org/protocol/disco#info".

Definition same_key (a b : identity) : bool :=
  bool_decide (id_category a = id_category b) &&
  bool_decide (id_type a = id_type b) &&
  bool_decide (id_lang a = id_lang b).

(** Modelled from the spec: [DiscoInfo.add_identity], which is not in
    disco.py, inserts an identity or replaces the one that has the same
    (category, type, language). *)
Definition info_add_identity (i : DiscoInfo) (category itype : string)
    (name lang : option string) : DiscoInfo :=
  let new := Identity category itype lang name in
  mkDiscoInfo (info_node i)
              (filter (fun old => same_key old new = false) (info_identities i)
                 ++ [new])
              (info_features i).

(** Modelled from the spec: [DiscoInfo.add_feature], which is not in
    disco.py, inserts a feature if it is absent. *)
Definition info_add_feature (i : DiscoInfo) (feature : string) : DiscoInfo :=
  mkDiscoInfo (info_node i) (info_identities i)
              (if bool_decide (feature ∈ info_features i) then info_features i
               else info_features i ++ [feature]).

(** [info['node']]; subscripting [None] is a [TypeError]. *)
Definition get_node (v : value) : M string :=
  match v with
  | VNone => raise (TypeError "'NoneType' object is not subscriptable")
  | VInfo i => ret (info_node i)
  | VItems it => ret (items_node it)
  end.

(** [bool(info['identities'])].  An items stanza has no such interface
    (its answer counts as false) and no [add_identity] method. *)
Definition has_identities (v : value) : M bool :=
  match v with
  | VNone => raise (TypeError "'NoneType' object is not subscriptable")
  | VInfo i => ret (negb (bool_decide (info_identities i = [])))
  | VItems _ => ret false
  end.

Definition has_features (v : value) : M bool :=
  match v with
  | VNone => raise (TypeError "'NoneType' object is not subscriptable")
  | VInfo i => ret (negb (bool_decide (info_features i = [])))
  | VItems _ => ret false
  end.

Definition add_identity_to (v : value) (category itype : string) : M value :=
  match v with
  | VInfo i => ret (VInfo (info_add_identity i category itype None None))
  | _ => raise (AttributeError "add_identity")
  end.

Definition add_feature_to (v : value) (feature : string) : M value :=
  match v with
  | VInfo i => ret (VInfo (info_add_feature i feature))
  | _ => raise (AttributeError "add_feature")
  end.

(** [bool(obj)] for what a handler returned. *)
Definition truthy (v : value) : bool :=
  match v with
  | VNone => false
  | VInfo i => stanza_bool (SInfo i)
  | VItems it => stanza_bool (SItems it)
  end.

(** [obj.xml] *)
Definition xml (v : value) : M stanza :=
  match v with
  | VNone => raise (AttributeError "xml")
  | VInfo i => ret (SInfo i)
  | VItems it => ret (SItems it)
  end.

(** [iq['disco_info']['node']]: the node of the query element, the
    empty string when there is none. *)
Fixpoint disco_info_node (payload : list stanza) : string :=
  match payload with
  | SInfo i :: _ => info_node i
  | _ :: rest => disco_info_node rest
  | [] => ""
  end.

Fixpoint disco_items_node (payload : list stanza) : string :=
  match payload with
  | SItems it :: _ => items_node it
  | _ :: rest => disco_items_node rest
  | [] => ""
  end.

(** Modelled from the spec: [iq.reply()], which is not in disco.py,
    turns the request into an empty result addressed to its sender. *)
Definition reply (iq : Iq) : Iq :=
  mkIq "result" (iq_to iq) (iq_from iq) (iq_id iq) [].

(** [iq.set_payload(x)] appends a child element. *)
Definition set_payload (iq : Iq) (x : stanza) : Iq :=
  mkIq (iq_type iq) (iq_from iq) (iq_to iq) (iq_id iq) (iq_payload iq ++ [x]).

(** [iq.send()] *)
Definition send (iq : Iq) : M unit := modify (set_sent (fun l => l ++ [iq])).

(** [self.xmpp.event(name, iq)] *)
Definition event (name : string) (iq : Iq) : M unit :=
  modify (set_events (fun l => l ++ [(name, iq)])).

(** [kwargs.get(k, default)] *)
Definition dict_get (kwargs : gmap string pyarg) (k : string) (dflt : pyarg)
  : pyarg :=
  match kwargs !! k with
  | Some v => v
  | None => dflt
  end.

Definition arg_bool (a : pyarg) : bool :=
  match a with
  | PNone => false
  | PStr s => negb (bool_decide (s = ""))
  | PBool b => b
  end.

(** [node if node else '']: [None] and the empty string both give
    the empty string. *)
Definition node_or_empty (node : option string) : string :=
  match node with
  | Some n => n
  | None => ""
  end.

(** ** Default injection *)

Definition _fix_default_info (info : value) : M value :=
  st <- get ;;
  node <- get_node info ;;
  if bool_decide (node = "") then
    ids <- has_identities info ;;
    info <- (if negb ids then
               if is_component st then add_identity_to info "component" "generic"
               else add_identity_to info "client" "bot"
             else ret info) ;;
    fs <- has_features info ;;
    if negb fs then add_feature_to info namespace
    else ret info
  else ret info.

(** ** Queries *)

Definition get_info (jid node : option string) (local : bool)
    (kwargs : gmap string pyarg) : M query_result :=
  if local || bool_decide (jid = None) then
    info <- _run_node_handler "get_info" jid node (DKwargs kwargs) ;;
    info <- _fix_default_info info ;;
    ret (Local info)
  else
    ret (Sent (mkRequest "disco_info"
                 (dict_get kwargs "ifrom" (dict_get kwargs "dfrom" (PStr "")))
                 (default "" jid) (* jid is not None on this branch *)
                 "get" (node_or_empty node)
                 (dict_get kwargs "timeout" PNone)
                 (dict_get kwargs "block" (PBool true))
                 (dict_get kwargs "callback" PNone)
                 false)).

Definition get_items (jid node : option string) (local : bool)
    (kwargs : gmap string pyarg) : M query_result :=
  if local || bool_decide (jid = None) then
    items <- _run_node_handler "get_items" jid node (DKwargs kwargs) ;;
    ret (Local items)
  else
    st <- get ;;
    ret (Sent (mkRequest "disco_items"
                 (dict_get kwargs "ifrom" (dict_get kwargs "dfrom" (PStr "")))
                 (default "" jid) (* jid is not None on this branch *)
                 "get" (node_or_empty node)
                 (dict_get kwargs "timeout" PNone)
                 (dict_get kwargs "block" (PBool true))
                 (dict_get kwargs "callback" PNone)
                 (arg_bool (dict_get kwargs "iterator" (PBool false))
                  && has_xep_0059 st))).

(** ** Changing the contents of a node *)

Definition set_items (jid node : option string) (kwargs : gmap string pyarg)
  : M unit :=
  _run_node_handler "set_items" jid node (DKwargs kwargs) ;;; ret tt.

Definition del_items (jid node : option string) (kwargs : gmap string pyarg)
  : M unit :=
  _run_node_handler "del_items" jid node (DKwargs kwargs) ;;; ret tt.

Definition add_item (jid name : string) (node : option string)
    (subnode : string) (ijid : option string) : M unit :=
  st <- get ;;
  let jid := if bool_decide (jid = "") then full (boundjid st) else jid in
  let kwargs : gmap string pyarg :=
    <["ijid" := PStr jid]> (<["name" := PStr name]>
      (<["inode" := PStr subnode]> ∅)) in
  _run_node_handler "add_item" ijid node (DKwargs kwargs) ;;; ret tt.

Definition del_item (jid node : option string) (kwargs : gmap string pyarg)
  : M unit :=
  _run_node_handler "del_item" jid node (DKwargs kwargs) ;;; ret tt.

Definition opt_arg (o : option string) : pyarg :=
  match o with
  | Some s => PStr s
  | None => PNone
  end.

Definition add_identity (category itype name : string) (node jid : option string)
    (lang : option string) : M unit :=
  let kwargs : gmap string pyarg :=
    <["category" := PStr category]> (<["itype" := PStr itype]>
      (<["name" := PStr name]> (<["lang" := opt_arg lang]> ∅))) in
  _run_node_handler "add_identity" jid node (DKwargs kwargs) ;;; ret tt.

Definition add_feature (feature : string) (node jid : option string) : M unit :=
  let kwargs : gmap string pyarg := <["feature" := PStr feature]> ∅ in
  _run_node_handler "add_feature" jid node (DKwargs kwargs) ;;; ret tt.

Definition del_identity (jid node : option string)
    (kwargs : gmap string pyarg) : M unit :=
  _run_node_handler "del_identity" jid node (DKwargs kwargs) ;;; ret tt.

Definition del_feature (jid node : option string)
    (kwargs : gmap string pyarg) : M unit :=
  _run_node_handler "del_feature" jid node (DKwargs kwargs) ;;; ret tt.

Definition set_identities (jid node : option string)
    (kwargs : gmap string pyarg) : M unit :=
  _run_node_handler "set_identities" jid node (DKwargs kwargs) ;;; ret tt.

Definition del_identities (jid node : option string)
    (kwargs : gmap string pyarg) : M unit :=
  _run_node_handler "del_identities" jid node (DKwargs kwargs) ;;; ret tt.

Definition set_features (jid node : option string)
    (kwargs : gmap string pyarg) : M unit :=
  _run_node_handler "set_features" jid node (DKwargs kwargs) ;;; ret tt.

Definition del_features (jid node : option string)
    (kwargs : gmap string pyarg) : M unit :=
  _run_node_handler "del_features" jid node (DKwargs kwargs) ;;; ret tt.

(** ** Inbound stanzas *)

Definition _handle_disco_info (iq : Iq) : M unit :=
  if bool_decide (iq_type iq = "get") then
    st <- get ;;
    let jid := if is_component st then full (iq_to iq) else bare (iq_to iq) in
    info <- _run_node_handler "get_info" (Some jid)
              (Some (disco_info_node (iq_payload iq))) (DIq iq) ;;
    let iq := reply iq in
    iq <- (if truthy info then
             info <- _fix_default_info info ;;
             x <- xml info ;;
             ret (set_payload iq x)
           else ret iq) ;;
    send iq
  else if bool_decide (iq_type iq = "result") then
    event "disco_info" iq
  else ret tt.

Definition _handle_disco_items (iq : Iq) : M unit :=
  if bool_decide (iq_type iq = "get") then
    st <- get ;;
    let jid := if is_component st then full (iq_to iq) else bare (iq_to iq) in
    items <- _run_node_handler "get_items" (Some jid)
               (Some (disco_items_node (iq_payload iq))) (DIq iq) ;;
    let iq := reply iq in
    iq <- (if truthy items then
             x <- xml items ;;
             ret (set_payload iq x)
           else ret iq) ;;
    send iq
  else if bool_decide (iq_type iq = "result") then
    event "disco_items" iq
  else ret tt.

(** ** Vocabulary of the statements *)

(** A tier that resolution passes over: no entry, or an entry that was
    cleared (holds [None]). *)
Definition skipped (o : option (option handler)) : Prop :=
  o = None \/ o = Some None.

(** The precedence rule in the words of the specification: the
    per-scope handler for exactly (address, node), else the per-address
    handler, else the global handler, else nothing. *)
Definition resolve (e : tiers) (address node : string) : option handler :=
  match t_node e !! (address, node) with
  | Some (Some per_scope) => Some per_scope
  | _ =>
    match t_jid e !! address with
    | Some (Some per_address) => Some per_address
    | _ => t_global e
    end
  end.

(** Where [set_node_handler] stores a handler, by which of the address
    and the node are given. *)
Definition place (jid node : option string) (own : string)
    (h : option handler) (e : tiers) : tiers :=
  match jid, node with
  | None, None => set_global h e
  | Some jid, None => set_jid jid h e
  | None, Some node => set_node own node h e
  | Some jid, Some node => set_node jid node h e
  end.

(** The tables hold exactly the supported operations. *)
Definition wf (st : xep_0030) : Prop :=
  forall op : string,
    (op ∈ _disco_ops st <-> is_Some (_handlers st !! op)) /\
    (op ∈ _disco_ops st <-> is_Some (default_handlers st !! op)).

(** Two states that differ at most in the handler table. *)
Definition same_but_handlers (st st' : xep_0030) : Prop :=
  st' = set_handlers (fun _ => _handlers st') st.

(** The address an inbound query is resolved under: its destination,
    full in component mode and bare in client mode. *)
Definition target (st : xep_0030) (iq : Iq) : string :=
  if is_component st then full (iq_to iq) else bare (iq_to iq).

(** What a caller sees of a dispatch: what came back, and what the
    storage of the handlers holds afterwards. *)
Definition outcome {A : Type} (r : result A * xep_0030) : result A * B :=
  (fst r, storage (snd r)).

(** Nothing resolves for the operation at the scope. *)
Definition unhandled (st : xep_0030) (op address node : string) : Prop :=
  exists e, _handlers st !! op = Some e /\ resolve e address node = None.

(** The identity that default injection adds. *)
Definition generic_identity (component : bool) : identity :=
  if component then Identity "component" "generic" None None
  else Identity "client" "bot" None None.

End Plugin.

(** ** Concrete plugins for the examples *)

Module Example.

Definition me : JID := mkJID "bot@example.org/work" "bot@example.org".

Definition always (_ : stanza) : bool := true.

(** A handler that answers with an info result naming itself and the
    node it was asked about, and notes the call in a log. *)
Definition answer (tag : string) : @handler (list string) :=
  fun jid node _ log =>
    (Ok (VInfo (mkDiscoInfo node [] [tag])), log ++ [tag; jid; node]).

(** A handler that raises. *)
Definition broken : @handler (list string) :=
  fun _ _ _ log => (Raise (Raised "RuntimeError"), log).

Definition static (op : string) : @handler (list string) :=
  answer (String.append "static." op).

(** A client after [plugin_init]. *)
Definition started : @xep_0030 (list string) :=
  snd (plugin_init static (blank false me false [])).

(** The client after a global handler, a handler for one address and
    a handler for one node of that address were registered. *)
Definition layered : @xep_0030 (list string) :=
  snd (set_node_handler "get_info" (Some "shop@example.org") (Some "n")
         (Some (answer "S"))
    (snd (set_node_handler "get_info" (Some "shop@example.org") None
            (Some (answer "A"))
    (snd (set_node_handler "get_info" None None (Some (answer "G"))
            started))))).

(** The client after the global handlers of the two queries were
    removed: nothing is registered for them at any tier. *)
Definition silenced : @xep_0030 (list string) :=
  snd (del_node_handler "get_items" None None
    (snd (del_node_handler "get_info" None None started))).

(** The client with a global info handler that raises. *)
Definition faulty : @xep_0030 (list string) :=
  snd (set_node_handler "get_info" None None (Some broken) started).

(** A handler that answers with an info result that holds nothing. *)
Definition hollow : @handler (list string) :=
  fun _ node _ log => (Ok (VInfo (mkDiscoInfo node [] [])), log).

(** The client with that handler as its global info handler. *)
Definition hollowed : @xep_0030 (list string) :=
  snd (set_node_handler "get_info" None None (Some hollow) started).

Definition query (kind node : string) : Iq :=
  mkIq kind (mkJID "peer@example.net/phone" "peer@example.net") me "q1"
       [SInfo (mkDiscoInfo node [] [])].

(** The item tables of a store, one list per scope. *)
Definition item : Type := string * string * string.

Definition arg_str (a : pyarg) : string :=
  match a with
  | PStr s => s
  | _ => ""
  end.

Fixpoint upsert (new : item) (l : list item) : list item :=
  match l with
  | [] => [new]
  | old :: rest =>
    if bool_decide ((old.1.1, old.1.2) = (new.1.1, new.1.2)) then new :: rest
    else old :: upsert new rest
  end.

(** Modelled from the spec: the store's [add_item], which is not in
    disco.py, inserts or replaces by (item-address, item-node) and
    fails with InvalidArgument when the item address is empty. *)
Definition store_add_item
  : @handler (gmap (string * string) (list item)) :=
  fun jid node d tbl =>
    match d with
    | DKwargs kw =>
      let ijid := arg_str (dict_get kw "ijid" PNone) in
      let inode := arg_str (dict_get kw "inode" PNone) in
      let name := arg_str (dict_get kw "name" PNone) in
      if bool_decide (ijid = "") then (Raise (Raised "InvalidArgument"), tbl)
      else (Ok VNone,
            <[(jid, node) := upsert (ijid, inode, name)
                               (default [] (tbl !! (jid, node)))]> tbl)
    | DIq _ => (Raise (TypeError "keyword arguments expected"), tbl)
    end.

Definition store_static (op : string)
  : @handler (gmap (string * string) (list item)) :=
  if bool_decide (op = "add_item") then store_add_item
  else fun _ _ _ tbl => (Ok VNone, tbl).

Definition store_started : @xep_0030 (gmap (string * string) (list item)) :=
  snd (plugin_init store_static (blank false me false ∅)).

End Example.

(** * Properties *)

Section Registry.

Context {B : Type}.
Implicit Types (st : @xep_0030 B) (e : @tiers B) (h : option (@handler B)).
Implicit Types (op : string) (d : data).

Ltac unfold_monad := unfold bind, get, modify, ret, raise, getitem.

(** ** Dispatch follows the precedence rule *)

Lemma run_node_handler_resolve st op e (jid node : option string) d :
  _handlers st !! op = Some e ->
  _run_node_handler op jid node d st =
    match resolve e (default (own_jid st) jid) (default "" node) with
    | Some h => call h (default (own_jid st) jid) (default "" node) d st
    | None => (Ok VNone, st)
    end.
Proof.
  intros He. unfold _run_node_handler, resolve. unfold_monad. rewrite He.
  destruct jid as [j|], node as [n|]; cbn;
    repeat (match goal with
            | |- context [match ?m !! ?k with _ => _ end] =>
                destruct (m !! k) as [[?|]|]
            | |- context [match t_global ?x with _ => _ end] =>
                destruct (t_global x)
            end; cbn); reflexivity.
Qed.

Lemma run_node_handler_unknown st op (jid node : option string) d :
  _handlers st !! op = None ->
  _run_node_handler op jid node d st = (Raise (KeyError op), st).
Proof.
  intros He. unfold _run_node_handler. unfold_monad. now rewrite He.
Qed.

Lemma resolve_none e (address node : string) :
  resolve e address node = None <->
  skipped (t_node e !! (address, node)) /\ skipped (t_jid e !! address) /\
  t_global e = None.
Proof.
  unfold resolve, skipped.
  destruct (t_node e !! (address, node)) as [[?|]|];
    destruct (t_jid e !! address) as [[?|]|];
    intuition (congruence || auto).
Qed.

(** ** Registration *)

Lemma set_node_handler_known st op e (jid node : option string) h :
  op ∈ _disco_ops st -> _handlers st !! op = Some e ->
  set_node_handler op jid node h st =
    (Ok tt, set_handlers <[op := place jid node (own_jid st) h e]> st).
Proof.
  intros Hin He. unfold set_node_handler, assign. unfold_monad.
  rewrite bool_decide_eq_true_2 by done. cbn.
  destruct jid, node; cbn; rewrite He; reflexivity.
Qed.

Lemma set_node_handler_unknown st op (jid node : option string) h :
  op ∉ _disco_ops st -> set_node_handler op jid node h st = (Ok tt, st).
Proof.
  intros Hin. unfold set_node_handler. unfold_monad.
  now rewrite bool_decide_eq_false_2.
Qed.

Lemma place_place (jid node : option string) (own : string) h1 h2 e :
  place jid node own h2 (place jid node own h1 e) = place jid node own h2 e.
Proof.
  destruct jid, node; cbn; unfold set_global, set_jid, set_node; cbn;
    f_equal; apply insert_insert_eq.
Qed.

Lemma wf_set_handlers st op e e' :
  wf st -> _handlers st !! op = Some e -> wf (set_handlers <[op := e']> st).
Proof.
  intros Hwf He op'. destruct (Hwf op') as [H1 H2]. split; [|exact H2].
  cbn. rewrite lookup_insert. case_decide; subst; [|exact H1].
  split; intros _; [eauto | apply H1; eauto].
Qed.

(** ** The loop of [restore_defaults] *)

Lemma restore_op_known st op e dflt (jid node : option string) :
  op ∈ _disco_ops st -> _handlers st !! op = Some e ->
  default_handlers st !! op = Some dflt ->
  restore_op jid node op st =
    (Ok tt, set_handlers
              <[op := place jid node (own_jid st) (Some dflt) e]> st).
Proof.
  intros Hin He Hd. unfold restore_op, del_node_handler.
  unfold bind at 1. rewrite (set_node_handler_known st op e) by done.
  unfold bind at 1. unfold get at 1. unfold bind at 1. cbn [default_handlers set_handlers].
  unfold getitem. rewrite Hd. unfold ret at 1.
  erewrite set_node_handler_known;
    [| exact Hin | cbn; apply lookup_insert_eq ].
  f_equal. unfold set_handlers. cbn. f_equal.
  rewrite insert_insert_eq. f_equal. apply place_place.
Qed.

Lemma same_but_handlers_step st st' (f : gmap string tiers -> gmap string tiers) :
  same_but_handlers (set_handlers f st) st' -> same_but_handlers st st'.
Proof. unfold same_but_handlers. intros ->. reflexivity. Qed.

Lemma restore_loop (jid node : option string) (l : list string) :
  forall st,
    wf st -> (forall op, op ∈ l -> op ∈ _disco_ops st) ->
    exists st',
      for_each l (restore_op jid node) st = (Ok tt, st') /\
      same_but_handlers st st' /\ wf st' /\
      forall op e, _handlers st !! op = Some e ->
        (op ∈ l -> forall dflt, default_handlers st !! op = Some dflt ->
           _handlers st' !! op
             = Some (place jid node (own_jid st) (Some dflt) e)) /\
        (op ∉ l -> _handlers st' !! op = Some e).
Proof.
  induction l as [|x l IH]; intros st Hwf Hl.
  - exists st. cbn. split; [reflexivity|]. split; [now destruct st|].
    split; [exact Hwf|]. intros op e He. split; [|auto].
    intros Hin. now apply not_elem_of_nil in Hin.
  - assert (Hx : x ∈ _disco_ops st) by (apply Hl; left).
    destruct (proj1 (proj1 (Hwf x)) Hx) as [ex Hex].
    destruct (proj1 (proj2 (Hwf x)) Hx) as [dx Hdx].
    pose proof (restore_op_known st x ex dx jid node Hx Hex Hdx) as Hstep.
    set (st1 := set_handlers
                  <[x := place jid node (own_jid st) (Some dx) ex]> st) in *.
    destruct (IH st1) as (st' & Hrun & Hsame & Hwf' & Hlook).
    { eapply wf_set_handlers; eauto. }
    { intros op Hop. apply Hl. now right. }
    exists st'. split; [|split; [|split; [exact Hwf'|]]].
    + cbn. unfold bind. rewrite Hstep. exact Hrun.
    + eapply same_but_handlers_step. exact Hsame.
    + intros op e He. destruct (decide (op = x)) as [->|Hne].
      * assert (ex = e) as -> by congruence.
        assert (H1 : _handlers st1 !! x
                     = Some (place jid node (own_jid st) (Some dx) e))
          by (cbn; apply lookup_insert_eq).
        destruct (Hlook _ _ H1) as [Hin Hout]. split.
        -- intros _ dflt Hd. assert (dflt = dx) as -> by congruence.
           destruct (decide (x ∈ l)) as [Hxl|Hxl].
           ++ rewrite (Hin Hxl dx Hdx). cbn. now rewrite place_place.
           ++ now apply Hout.
        -- intros Hnot. exfalso. apply Hnot. left.
      * assert (H1 : _handlers st1 !! op = Some e)
          by (cbn; rewrite lookup_insert_ne; auto).
        destruct (Hlook _ _ H1) as [Hin Hout]. split.
        -- intros Hop dflt Hd. apply Hin; auto.
           apply elem_of_cons in Hop. destruct Hop; [congruence | auto].
        -- intros Hop. apply Hout. intros Hop'. apply Hop. now right.
Qed.

(** ** Initialisation fills the tables *)

Lemma add_ops_spec (static : string -> @handler B) (l : list string) :
  forall st,
    exists st',
      for_each l (fun op => _add_disco_op op (static op)) st = (Ok tt, st') /\
      _disco_ops st' = _disco_ops st /\
      forall op,
        (op ∈ l ->
           _handlers st' !! op = Some (mkTiers (Some (static op)) ∅ ∅) /\
           default_handlers st' !! op = Some (static op)) /\
        (op ∉ l ->
           _handlers st' !! op = _handlers st !! op /\
           default_handlers st' !! op = default_handlers st !! op).
Proof.
  induction l as [|x l IH]; intros st.
  - exists st. cbn. split; [reflexivity|]. split; [reflexivity|].
    intros op. split; [|auto]. intros Hin. now apply not_elem_of_nil in Hin.
  - set (st1 := set_handlers <[x := mkTiers (Some (static x)) ∅ ∅]>
                  (set_default_handlers <[x := static x]> st)).
    destruct (IH st1) as (st' & Hrun & Hops & Hlook).
    exists st'. split; [|split]; auto.
    intros op. destruct (Hlook op) as [Hin Hout]. split.
    + intros Hop. destruct (decide (op ∈ l)) as [Hl|Hl]; [now apply Hin|].
      apply elem_of_cons in Hop. destruct Hop as [->|]; [|contradiction].
      destruct (Hout Hl) as [-> ->]. cbn. now rewrite !lookup_insert_eq.
    + intros Hop. apply not_elem_of_cons in Hop. destruct Hop as [Hne Hl].
      destruct (Hout Hl) as [-> ->]. cbn. now rewrite !lookup_insert_ne.
Qed.

Lemma plugin_init_spec (static : string -> @handler B) component me x b :
  let st0 := snd (plugin_init static (blank component me x b)) in
  plugin_init static (blank component me x b) = (Ok tt, st0) /\
  _disco_ops st0 = disco_ops /\ wf st0 /\
  forall op, op ∈ disco_ops ->
    _handlers st0 !! op = Some (mkTiers (Some (static op)) ∅ ∅) /\
    default_handlers st0 !! op = Some (static op).
Proof.
  destruct (add_ops_spec static disco_ops (blank component me x b))
    as (st' & Hrun & Hops & Hlook).
  assert (Hinit : plugin_init static (blank component me x b) = (Ok tt, st'))
    by exact Hrun.
  intros st0. subst st0. rewrite Hinit. cbn [snd].
  split; [reflexivity|]. split; [exact Hops|]. split.
  - intros op. rewrite Hops. cbn [_disco_ops blank].
    destruct (Hlook op) as [Hin Hout].
    destruct (decide (op ∈ disco_ops)) as [Hop|Hop].
    + destruct (Hin Hop) as [-> ->]. split; split; eauto.
    + destruct (Hout Hop) as [-> ->]. cbn. rewrite !lookup_empty.
      split; split; try contradiction; intros [? ?]; discriminate.
  - intros op Hop. now apply Hlook.
Qed.

(** Registration keeps the tables in step with the supported operations. *)
Lemma set_node_handler_wf st op (jid node : option string) h :
  wf st -> wf (snd (set_node_handler op jid node h st)).
Proof.
  intros Hwf. destruct (decide (op ∈ _disco_ops st)) as [Hin|Hin].
  - destruct (proj1 (proj1 (Hwf op)) Hin) as [e He].
    rewrite (set_node_handler_known st op e) by done. cbn [snd].
    eapply wf_set_handlers; eauto.
  - now rewrite set_node_handler_unknown.
Qed.

(** A dispatch changes nothing but the storage of the handlers. *)
Lemma run_node_handler_frame st op (jid node : option string) d r st1 :
  _run_node_handler op jid node d st = (r, st1) ->
  st1 = set_storage (storage st1) st.
Proof.
  destruct (_handlers st !! op) as [e|] eqn:He.
  - rewrite (run_node_handler_resolve st op e) by done.
    destruct (resolve e _ _) as [h|].
    + unfold call. destruct (h _ _ _ _) as [r' b]. intros [= _ <-]. reflexivity.
    + intros [= _ <-]. now destruct st.
  - rewrite run_node_handler_unknown by done. intros [= _ <-]. now destruct st.
Qed.

End Registry.

(** * The registry: precedence, clearing, defaults *)

Section RegistryClaims.

Context {B : Type}.
Implicit Types (st : @xep_0030 B) (e : @tiers B).
Implicit Types (op : string) (d : data).

(** C1. For a supported operation and any scope, dispatch runs the most
    specific registered handler: the per-scope handler for exactly
    (address, node) if there is one, else the per-address handler, else
    the global handler, else it returns None.  A tier that has no entry
    or whose entry was cleared is passed over; None comes out only when
    the global tier is unset as well.  Clearing the per-scope entry of a
    scope makes dispatch for that scope fall to the coarser tiers. *)
Theorem C1_most_specific_handler st op (jid node : option string) d :
  wf st -> op ∈ _disco_ops st ->
  let j := default (own_jid st) jid in
  let n := default "" node in
  exists e, _handlers st !! op = Some e /\
    (forall S, t_node e !! (j, n) = Some (Some S) ->
       _run_node_handler op jid node d st = call S j n d st) /\
    (forall A, skipped (t_node e !! (j, n)) -> t_jid e !! j = Some (Some A) ->
       _run_node_handler op jid node d st = call A j n d st) /\
    (forall G, skipped (t_node e !! (j, n)) -> skipped (t_jid e !! j) ->
       t_global e = Some G ->
       _run_node_handler op jid node d st = call G j n d st) /\
    (skipped (t_node e !! (j, n)) -> skipped (t_jid e !! j) ->
       t_global e = None ->
       _run_node_handler op jid node d st = (Ok VNone, st)) /\
    _run_node_handler op jid node d st =
      match resolve e j n with
      | Some h => call h j n d st
      | None => (Ok VNone, st)
      end /\
    (resolve e j n = None -> t_global e = None) /\
    (forall X nd : string, exists st1,
       del_node_handler op (Some X) (Some nd) st = (Ok tt, st1) /\
       _run_node_handler op (Some X) (Some nd) d st1 =
         match resolve (mkTiers (t_global e) (t_jid e) ∅) X nd with
         | Some h => call h X nd d st1
         | None => (Ok VNone, st1)
         end).
Proof.
  intros Hwf Hin j n. destruct (proj1 (proj1 (Hwf op)) Hin) as [e He].
  exists e. split; [exact He|].
  pose proof (run_node_handler_resolve st op e jid node d He) as Hrun.
  fold j n in Hrun. rewrite Hrun. unfold resolve, skipped.
  repeat split.
  - intros S ->. reflexivity.
  - intros A [-> | ->] ->; reflexivity.
  - intros G [-> | ->] [-> | ->] ->; reflexivity.
  - intros [-> | ->] [-> | ->] ->; reflexivity.
  - destruct (t_node e !! (j, n)) as [[?|]|];
      destruct (t_jid e !! j) as [[?|]|]; auto; discriminate.
  - intros X nd. eexists. split.
    + unfold del_node_handler. apply (set_node_handler_known st op e); assumption.
    + erewrite run_node_handler_resolve;
        [| cbn [_handlers set_handlers]; apply lookup_insert_eq ].
      cbn [default place]. unfold resolve, set_node. cbn.
      rewrite lookup_insert_eq, lookup_empty. reflexivity.
Qed.


(** C5, as the code has it.  For a name outside the supported
    operations, registration returns normally and leaves the state as
    it was, in every state.  Where the tables hold exactly the
    supported operations, dispatch of such a name raises KeyError
    without calling a handler or changing the state. *)
Theorem C5_unknown_operation st op :
  op ∉ _disco_ops st ->
  (forall (jid node : option string) h,
     set_node_handler op jid node h st = (Ok tt, st)) /\
  (wf st ->
   forall (jid node : option string) d,
     _run_node_handler op jid node d st = (Raise (KeyError op), st)).
Proof.
  intros Hout. split.
  - intros jid node h. now apply set_node_handler_unknown.
  - intros Hwf jid node d. apply run_node_handler_unknown.
    destruct (_handlers st !! op) as [e|] eqn:He; [|reflexivity].
    exfalso. apply Hout. apply (proj2 (proj1 (Hwf op))). rewrite He.
    now exists e.
Qed.

(** C3. Register a global handler G and a per-address handler A for
    address X, then call restore_defaults for the scope (X, n).  After
    that the default handler given at initialisation sits in the
    per-scope tier for (X, n) and is the one dispatch runs for (X, n),
    ahead of A; for another node n' of X, with no per-scope handler of
    its own, dispatch still runs A. *)
Theorem C3_restore_defaults_scope st op (X n n' : string)
    (G A dflt : @handler B) e d :
  wf st -> op ∈ _disco_ops st ->
  default_handlers st !! op = Some dflt ->
  _handlers st !! op = Some e ->
  skipped (t_node e !! (X, n')) -> n <> n' ->
  exists st',
    bind (set_node_handler op None None (Some G)) (fun _ =>
    bind (set_node_handler op (Some X) None (Some A)) (fun _ =>
    restore_defaults (Some X) (Some n) None)) st = (Ok tt, st') /\
    (exists e', _handlers st' !! op = Some e' /\
                t_node e' !! (X, n) = Some (Some dflt) /\
                t_jid e' !! X = Some (Some A) /\
                t_global e' = Some G) /\
    _run_node_handler op (Some X) (Some n) d st' = call dflt X n d st' /\
    _run_node_handler op (Some X) (Some n') d st' = call A X n' d st'.
Proof.
  intros Hwf Hin Hd He Hskip Hne.
  set (e1 := set_global (Some G) e).
  set (st1 := set_handlers <[op := e1]> st).
  set (e2 := set_jid X (Some A) e1).
  set (st2 := set_handlers <[op := e2]> st1).
  assert (H1 : set_node_handler op None None (Some G) st = (Ok tt, st1))
    by exact (set_node_handler_known st op e None None (Some G) Hin He).
  assert (Hwf1 : wf st1) by (eapply wf_set_handlers; eauto).
  assert (He1 : _handlers st1 !! op = Some e1) by apply lookup_insert_eq.
  assert (H2 : set_node_handler op (Some X) None (Some A) st1 = (Ok tt, st2))
    by exact (set_node_handler_known st1 op e1 (Some X) None (Some A) Hin He1).
  assert (Hwf2 : wf st2) by (eapply wf_set_handlers; eauto).
  assert (He2 : _handlers st2 !! op = Some e2) by apply lookup_insert_eq.
  destruct (restore_loop (Some X) (Some n) (_disco_ops st2) st2 Hwf2)
    as (st' & Hrun & _ & _ & Hlook); [auto|].
  destruct (Hlook op e2 He2) as [Hset _].
  specialize (Hset Hin dflt Hd). cbn [place] in Hset.
  exists st'. split; [|split; [|split]].
  - unfold bind at 1. rewrite H1. unfold bind at 1. rewrite H2. exact Hrun.
  - eexists. split; [exact Hset|]. cbn. rewrite !lookup_insert_eq. auto.
  - rewrite (run_node_handler_resolve _ _ _ _ _ _ Hset). cbn [default].
    unfold resolve. cbn. now rewrite lookup_insert_eq.
  - rewrite (run_node_handler_resolve _ _ _ _ _ _ Hset). cbn [default].
    unfold resolve. cbn. rewrite lookup_insert_ne by congruence.
    rewrite lookup_insert_eq. now destruct Hskip as [-> | ->].
Qed.

(** C8. restore_defaults with neither address nor node replaces the
    global handler of every listed operation by the default handler
    given at initialisation; the per-address and per-scope maps of those
    operations, the entries of the operations not listed and the rest
    of the state stay as they were, so no per-scope entry is installed. *)
Theorem C8_restore_defaults_global st (handlers : option (list string)) :
  wf st ->
  (forall l, handlers = Some l -> forall op, op ∈ l -> op ∈ _disco_ops st) ->
  exists st',
    restore_defaults None None handlers st = (Ok tt, st') /\
    same_but_handlers st st' /\
    forall op e, _handlers st !! op = Some e ->
      (op ∈ default (_disco_ops st) handlers ->
       forall dflt, default_handlers st !! op = Some dflt ->
         _handlers st' !! op = Some (mkTiers (Some dflt) (t_jid e) (t_node e)))
      /\
      (op ∉ default (_disco_ops st) handlers -> _handlers st' !! op = Some e).
Proof.
  intros Hwf Hl.
  destruct (restore_loop None None (default (_disco_ops st) handlers) st Hwf)
    as (st' & Hrun & Hsame & _ & Hlook).
  { destruct handlers as [l|]; cbn; [now apply Hl | auto]. }
  exists st'. split; [|split; [exact Hsame|exact Hlook]].
  unfold restore_defaults, bind, get. destruct handlers; exact Hrun.
Qed.

End RegistryClaims.

(** * The dispatcher: default injection, local queries, replies *)

Section DispatcherClaims.

Context {B : Type}.
Variable stanza_bool : stanza -> bool.
Implicit Types (st : @xep_0030 B) (e : @tiers B).
Implicit Types (d : data) (iq : Iq).

(** Default injection on an info result never fails and leaves the
    plugin as it was. *)
Lemma fix_default_info_total st (i : DiscoInfo) :
  exists i', _fix_default_info (VInfo i) st = (Ok (VInfo i'), st).
Proof.
  destruct i as [node ids fs]. unfold _fix_default_info.
  unfold bind, get, get_node, ret. cbn.
  destruct (bool_decide (node = "")); [|eauto].
  destruct ids as [|x ids]; cbn;
    destruct (is_component st); cbn;
    destruct fs as [|f fs]; cbn; eauto.
Qed.

(** C2. On an info result whose node is empty, default injection puts
    exactly one identity where there was none (the generic component
    identity in component mode, the generic client identity otherwise)
    and exactly one feature, the disco#info namespace, where there was
    none; identities and features that are there are kept.  On a result
    whose node is not empty nothing is injected: it comes back
    unchanged.  A local get_info returns the result of its handler
    after this injection. *)
Theorem C2_default_injection st (i : DiscoInfo) :
  exists i',
    _fix_default_info (VInfo i) st = (Ok (VInfo i'), st) /\
    info_node i' = info_node i /\
    (info_node i = "" -> info_identities i = [] ->
       info_identities i' = [generic_identity (is_component st)]) /\
    (info_node i = "" -> info_identities i <> [] ->
       info_identities i' = info_identities i) /\
    (info_node i = "" -> info_features i = [] ->
       info_features i' = [namespace]) /\
    (info_node i = "" -> info_features i <> [] ->
       info_features i' = info_features i) /\
    (info_node i <> "" -> i' = i) /\
    (forall st0 (jid node : option string) kwargs,
       _run_node_handler "get_info" jid node (DKwargs kwargs) st0
         = (Ok (VInfo i), st) ->
       get_info jid node true kwargs st0 = (Ok (Local (VInfo i')), st)).
Proof.
  assert (Hget : forall i', _fix_default_info (VInfo i) st = (Ok (VInfo i'), st) ->
            forall st0 (jid node : option string) kwargs,
              _run_node_handler "get_info" jid node (DKwargs kwargs) st0
                = (Ok (VInfo i), st) ->
              get_info jid node true kwargs st0 = (Ok (Local (VInfo i')), st)).
  { intros i' Hfix st0 jid node kwargs Hrun. unfold get_info. cbn [orb].
    unfold bind at 1. rewrite Hrun. unfold bind at 1. now rewrite Hfix. }
  destruct i as [node ids fs]. cbn [info_node info_identities info_features].
  destruct (decide (node = "")) as [->|Hnode].
  - destruct ids as [|x ids], fs as [|f fs], (is_component st) eqn:Hc;
      (eexists; split;
       [ unfold _fix_default_info, bind, get, get_node, ret; cbn;
         rewrite ?Hc; cbn; reflexivity
       | split; [reflexivity|];
         repeat (split; [intros; try reflexivity; congruence|]);
         intros st0 jid node kwargs; apply Hget;
         unfold _fix_default_info, bind, get, get_node, ret; cbn;
         rewrite ?Hc; cbn; reflexivity ]).
  - exists (mkDiscoInfo node ids fs).
    assert (Hfix : _fix_default_info (VInfo (mkDiscoInfo node ids fs)) st
                   = (Ok (VInfo (mkDiscoInfo node ids fs)), st)).
    { unfold _fix_default_info, bind, get, get_node, ret. cbn.
      now rewrite bool_decide_eq_false_2. }
    split; [exact Hfix|]. split; [reflexivity|].
    repeat (split; [intros; try reflexivity; congruence|]).
    intros st0 jid nd kwargs. now apply Hget.
Qed.

(** What an inbound info get query does once its handler returned. *)
Lemma handle_disco_info_empty st iq (v : value) st1 :
  iq_type iq = "get" ->
  _run_node_handler "get_info" (Some (target st iq))
    (Some (disco_info_node (iq_payload iq))) (DIq iq) st = (Ok v, st1) ->
  truthy stanza_bool v = false ->
  _handle_disco_info stanza_bool iq st
    = (Ok tt, set_sent (fun l => l ++ [reply iq]) st1).
Proof.
  intros Hget Hrun Hfalse. unfold _handle_disco_info.
  rewrite bool_decide_eq_true_2 by exact Hget.
  unfold bind at 1. unfold get at 1. unfold bind at 1.
  fold (target st iq). rewrite Hrun. rewrite Hfalse. reflexivity.
Qed.

Lemma handle_disco_info_filled st iq (i i' : DiscoInfo) st1 :
  iq_type iq = "get" ->
  _run_node_handler "get_info" (Some (target st iq))
    (Some (disco_info_node (iq_payload iq))) (DIq iq) st
    = (Ok (VInfo i), st1) ->
  truthy stanza_bool (VInfo i) = true ->
  _fix_default_info (VInfo i) st1 = (Ok (VInfo i'), st1) ->
  _handle_disco_info stanza_bool iq st
    = (Ok tt, set_sent (fun l => l ++ [set_payload (reply iq) (SInfo i')]) st1).
Proof.
  intros Hget Hrun Htrue Hfix. unfold _handle_disco_info.
  rewrite bool_decide_eq_true_2 by exact Hget.
  unfold bind at 1. unfold get at 1. unfold bind at 1.
  fold (target st iq). rewrite Hrun.
  rewrite Htrue. unfold bind at 1. unfold bind at 1. rewrite Hfix.
  reflexivity.
Qed.

(** Default injection leaves an info result with an empty node with
    an identity and a feature. *)
Lemma fix_default_info_filled st (i : DiscoInfo) :
  exists i',
    _fix_default_info (VInfo i) st = (Ok (VInfo i'), st) /\
    (info_node i = "" ->
       info_identities i' <> [] /\ info_features i' <> []).
Proof.
  destruct i as [node ids fs]. cbn [info_node].
  destruct (decide (node = "")) as [->|Hnode].
  - destruct ids as [|x ids], fs as [|f fs], (is_component st) eqn:Hc;
      (eexists; split;
       [ unfold _fix_default_info, bind, get, get_node, ret; cbn;
         rewrite ?Hc; cbn; reflexivity
       | intros _; split; discriminate ]).
  - destruct (fix_default_info_total st (mkDiscoInfo node ids fs))
      as [i' Hfix].
    exists i'. split; [exact Hfix | intros Hn; congruence].
Qed.

(** C10, as the code has it.  A stanza object counts as true in a
    boolean context.  For an inbound info get query, when resolution
    finds no handler or the handler returns None, the reply that is
    sent has no payload and default injection is not applied.  When the
    handler returns an info result, also one that holds no identity and
    no feature, injection is applied to it and the outcome is the
    payload of the reply: for a result with an empty node the payload
    holds an identity and a feature. *)
Theorem C10_payload_for_every_info_result st iq (v : value) st1 :
  (forall s, stanza_bool s = true) ->
  iq_type iq = "get" ->
  _run_node_handler "get_info" (Some (target st iq))
    (Some (disco_info_node (iq_payload iq))) (DIq iq) st = (Ok v, st1) ->
  iq_payload (reply iq) = [] /\
  (forall e, _handlers st !! "get_info" = Some e ->
     resolve e (target st iq) (disco_info_node (iq_payload iq)) = None ->
     v = VNone /\ st1 = st) /\
  (v = VNone ->
     _handle_disco_info stanza_bool iq st
       = (Ok tt, set_sent (fun l => l ++ [reply iq]) st1)) /\
  (forall i, v = VInfo i ->
     exists i',
       _fix_default_info (VInfo i) st1 = (Ok (VInfo i'), st1) /\
       _handle_disco_info stanza_bool iq st
         = (Ok tt, set_sent (fun l => l ++ [set_payload (reply iq) (SInfo i')])
                     st1) /\
       (info_node i = "" ->
          info_identities i' <> [] /\ info_features i' <> [])).
Proof.
  intros Hbool Hget Hrun. split; [reflexivity|]. split; [|split].
  - intros e He Hnone.
    rewrite (run_node_handler_resolve st _ e _ _ _ He) in Hrun.
    cbn [from_option id] in Hrun. rewrite Hnone in Hrun. now inversion Hrun.
  - intros ->. now apply (handle_disco_info_empty st iq VNone).
  - intros i ->. destruct (fix_default_info_filled st1 i) as (i' & Hfix & Hfull).
    exists i'. split; [exact Hfix|]. split; [|exact Hfull].
    apply (handle_disco_info_filled st iq i); auto. cbn. apply Hbool.
Qed.

(** C7, as the code has it.  For an inbound get query, when the
    handler returns (None, or a result of the kind that was asked for)
    one reply is sent; when the handler invocation raises, the error
    leaves the dispatcher as it was raised and no reply is sent. *)
Theorem C7_reply_unless_handler_raises st iq :
  iq_type iq = "get" ->
  (forall v st1,
     _run_node_handler "get_info" (Some (target st iq))
       (Some (disco_info_node (iq_payload iq))) (DIq iq) st = (Ok v, st1) ->
     truthy stanza_bool v = false \/ (exists i, v = VInfo i) ->
     exists answer,
       _handle_disco_info stanza_bool iq st
         = (Ok tt, set_sent (fun l => l ++ [answer]) st1)) /\
  (forall x st1,
     _run_node_handler "get_info" (Some (target st iq))
       (Some (disco_info_node (iq_payload iq))) (DIq iq) st = (Raise x, st1) ->
     _handle_disco_info stanza_bool iq st = (Raise x, st1) /\
     sent st1 = sent st) /\
  (forall v st1,
     _run_node_handler "get_items" (Some (target st iq))
       (Some (disco_items_node (iq_payload iq))) (DIq iq) st = (Ok v, st1) ->
     exists answer,
       _handle_disco_items stanza_bool iq st
         = (Ok tt, set_sent (fun l => l ++ [answer]) st1)) /\
  (forall x st1,
     _run_node_handler "get_items" (Some (target st iq))
       (Some (disco_items_node (iq_payload iq))) (DIq iq) st = (Raise x, st1) ->
     _handle_disco_items stanza_bool iq st = (Raise x, st1) /\
     sent st1 = sent st).
Proof.
  intros Hget. split; [|split; [|split]].
  - intros v st1 Hrun Hv.
    destruct (truthy stanza_bool v) eqn:Htruth.
    + destruct Hv as [Hv | [i ->]]; [discriminate|].
      destruct (fix_default_info_total st1 i) as [i' Hfix].
      eexists. eapply handle_disco_info_filled; eauto.
    + eexists. eapply handle_disco_info_empty; eauto.
  - intros x st1 Hrun. split.
    + unfold _handle_disco_info. rewrite bool_decide_eq_true_2 by exact Hget.
      unfold bind at 1. unfold get at 1. unfold bind at 1.
      fold (target st iq). now rewrite Hrun.
    + apply run_node_handler_frame in Hrun. now rewrite Hrun.
  - intros v st1 Hrun. unfold _handle_disco_items.
    rewrite bool_decide_eq_true_2 by exact Hget.
    unfold bind at 1. unfold get at 1. unfold bind at 1.
    fold (target st iq). rewrite Hrun.
    destruct v as [|i|it]; cbn [truthy]; [eauto| |];
      destruct (stanza_bool _); eauto.
  - intros x st1 Hrun. split.
    + unfold _handle_disco_items. rewrite bool_decide_eq_true_2 by exact Hget.
      unfold bind at 1. unfold get at 1. unfold bind at 1.
      fold (target st iq). now rewrite Hrun.
    + apply run_node_handler_frame in Hrun. now rewrite Hrun.
Qed.

(** C4, checked on the code.  When nothing resolves for the scope, a
    local get_items returns None, and a local get_info raises TypeError:
    None is handed to default injection, which subscripts it. *)
Theorem C4_local_query_without_handler st (jid node : option string)
    (local : bool) kwargs :
  local = true \/ jid = None ->
  (forall e, _handlers st !! "get_items" = Some e ->
     resolve e (default (own_jid st) jid) (default "" node) = None ->
     get_items jid node local kwargs st = (Ok (Local VNone), st)) /\
  (forall e, _handlers st !! "get_info" = Some e ->
     resolve e (default (own_jid st) jid) (default "" node) = None ->
     get_info jid node local kwargs st
       = (Raise (TypeError "'NoneType' object is not subscriptable"), st)).
Proof.
  intros Hlocal.
  assert (Hb : local || bool_decide (jid = None) = true).
  { destruct Hlocal as [-> | ->]; [reflexivity|]. apply orb_true_r. }
  split; intros e He Hnone.
  - unfold get_items. rewrite Hb. unfold bind at 1.
    rewrite (run_node_handler_resolve st _ e _ _ _ He), Hnone. reflexivity.
  - unfold get_info. rewrite Hb. unfold bind at 1.
    rewrite (run_node_handler_resolve st _ e _ _ _ He), Hnone. reflexivity.
Qed.

(** C6, as the code has it.  add_item with an empty item address does
    not fail in the plugin: the process's own full bound identifier
    stands in for the item address, and the add_item handler is
    dispatched with it under the key ijid. *)
Theorem C6_add_item_empty_address st (name subnode : string)
    (node ijid : option string) :
  add_item "" name node subnode ijid st
    = add_item (full (boundjid st)) name node subnode ijid st /\
  add_item "" name node subnode ijid st
    = bind (_run_node_handler "add_item" ijid node
              (DKwargs (<["ijid" := PStr (full (boundjid st))]>
                          (<["name" := PStr name]>
                             (<["inode" := PStr subnode]> ∅)))))
           (fun _ => ret tt) st.
Proof.
  split; [|reflexivity].
  unfold add_item. unfold bind at 1 3. unfold get at 1 2.
  rewrite bool_decide_eq_true_2 by reflexivity.
  destruct (bool_decide (full (boundjid st) = "")) eqn:Hfull; [|reflexivity].
  apply bool_decide_eq_true_1 in Hfull. now rewrite Hfull.
Qed.

End DispatcherClaims.

(** * The statements at work on concrete plugins *)

Lemma started_wf : wf Example.started.
Proof. apply (plugin_init_spec Example.static false Example.me false []). Qed.

Lemma layered_wf : wf Example.layered.
Proof. repeat apply set_node_handler_wf. exact started_wf. Qed.

Lemma get_info_supported (st : @xep_0030 (list string)) :
  _disco_ops st = disco_ops -> "get_info" ∈ _disco_ops st.
Proof. intros ->. apply list_elem_of_In. now left. Qed.

(** The precedence rule on the layered client: the scope (shop, n)
    gets S, another node of shop gets A, another address gets G. *)
Lemma C1_witness :
  wf Example.layered /\ "get_info" ∈ _disco_ops Example.layered /\
  _run_node_handler "get_info" (Some "shop@example.org") (Some "n")
      (DKwargs ∅) Example.layered
    = call (Example.answer "S") "shop@example.org" "n" (DKwargs ∅)
        Example.layered /\
  _run_node_handler "get_info" (Some "shop@example.org") (Some "other")
      (DKwargs ∅) Example.layered
    = call (Example.answer "A") "shop@example.org" "other" (DKwargs ∅)
        Example.layered /\
  _run_node_handler "get_info" (Some "bank@example.org") (Some "n")
      (DKwargs ∅) Example.layered
    = call (Example.answer "G") "bank@example.org" "n" (DKwargs ∅)
        Example.layered.
Proof.
  assert (Hin : "get_info" ∈ _disco_ops Example.layered)
    by (apply get_info_supported; reflexivity).
  split; [exact layered_wf|]. split; [exact Hin|]. split; [|split].
  - destruct (C1_most_specific_handler Example.layered "get_info"
                (Some "shop@example.org") (Some "n") (DKwargs ∅)
                layered_wf Hin) as (e & He & HS & _).
    apply HS. revert He. vm_compute. intros [= <-]. reflexivity.
  - destruct (C1_most_specific_handler Example.layered "get_info"
                (Some "shop@example.org") (Some "other") (DKwargs ∅)
                layered_wf Hin) as (e & He & _ & HA & _).
    apply HA; revert He; vm_compute; intros [= <-]; auto.
  - destruct (C1_most_specific_handler Example.layered "get_info"
                (Some "bank@example.org") (Some "n") (DKwargs ∅)
                layered_wf Hin) as (e & He & _ & _ & HG & _).
    apply HG; revert He; vm_compute; intros [= <-]; auto.
Defined.

(** Restoring the defaults of (shop, n) on the started client. *)
Lemma C3_witness :
  wf Example.started /\ "get_info" ∈ _disco_ops Example.started /\
  default_handlers Example.started !! "get_info"
    = Some (Example.static "get_info") /\
  _handlers Example.started !! "get_info"
    = Some (mkTiers (Some (Example.static "get_info")) ∅ ∅) /\
  "n" <> "other" /\
  exists st',
    bind (set_node_handler "get_info" None None (Some (Example.answer "G")))
      (fun _ =>
    bind (set_node_handler "get_info" (Some "shop@example.org") None
            (Some (Example.answer "A"))) (fun _ =>
    restore_defaults (Some "shop@example.org") (Some "n") None))
      Example.started = (Ok tt, st') /\
    fst (_run_node_handler "get_info" (Some "shop@example.org") (Some "n")
           (DKwargs ∅) st')
      = Ok (VInfo (mkDiscoInfo "n" [] ["static.get_info"])) /\
    fst (_run_node_handler "get_info" (Some "shop@example.org") (Some "other")
           (DKwargs ∅) st')
      = Ok (VInfo (mkDiscoInfo "other" [] ["A"])).
Proof.
  assert (Hin : "get_info" ∈ _disco_ops Example.started)
    by (apply get_info_supported; reflexivity).
  assert (Hd : default_handlers Example.started !! "get_info"
               = Some (Example.static "get_info"))
    by (vm_compute; reflexivity).
  assert (He : _handlers Example.started !! "get_info"
               = Some (mkTiers (Some (Example.static "get_info")) ∅ ∅))
    by (vm_compute; reflexivity).
  assert (Hne : "n" <> "other") by discriminate.
  repeat (split; [assumption || exact started_wf|]).
  destruct (C3_restore_defaults_scope Example.started "get_info"
              "shop@example.org" "n" "other"
              (Example.answer "G") (Example.answer "A")
              (Example.static "get_info") _ (DKwargs ∅)
              started_wf Hin Hd He (or_introl eq_refl) Hne)
    as (st' & Hprog & _ & Hn & Hother).
  exists st'. split; [exact Hprog|]. rewrite Hn, Hother.
  split; reflexivity.
Defined.

(** Restoring the global default of get_info on the layered client
    keeps the handlers registered for shop and for (shop, n). *)
Lemma C8_witness :
  wf Example.layered /\
  exists st',
    restore_defaults None None (Some ["get_info"]) Example.layered
      = (Ok tt, st') /\
    exists e',
      _handlers st' !! "get_info" = Some e' /\
      t_global e' = Some (Example.static "get_info") /\
      t_jid e' !! "shop@example.org" = Some (Some (Example.answer "A")) /\
      t_node e' !! ("shop@example.org", "n") = Some (Some (Example.answer "S")).
Proof.
  split; [exact layered_wf|].
  assert (Hin : "get_info" ∈ _disco_ops Example.layered)
    by (apply get_info_supported; reflexivity).
  destruct (C8_restore_defaults_global Example.layered (Some ["get_info"])
              layered_wf) as (st' & Hrun & _ & Hlook).
  { intros l [= <-] op Hop. apply list_elem_of_singleton in Hop.
    now subst op. }
  exists st'. split; [exact Hrun|].
  destruct (_handlers Example.layered !! "get_info") as [e|] eqn:He;
    [|vm_compute in He; discriminate].
  destruct (Hlook "get_info" e He) as [Hset _].
  eexists. split.
  - apply Hset; [apply list_elem_of_singleton; reflexivity|].
    vm_compute. reflexivity.
  - revert He. vm_compute. intros [= <-]. auto.
Defined.

(** Registering a handler for an operation that does not exist
    returns normally and changes nothing: no error is raised. *)
Lemma C5_counterexample :
  set_node_handler "purge" None None (Some Example.broken) Example.started
    = (Ok tt, Example.started) /\
  ~ (exists x st',
       set_node_handler "purge" None None (Some Example.broken) Example.started
         = (Raise x, st')).
Proof.
  assert (H : set_node_handler "purge" None None (Some Example.broken)
                Example.started = (Ok tt, Example.started)) by reflexivity.
  split; [exact H|]. intros (x & st' & Hx). rewrite H in Hx. discriminate.
Qed.

(** The unknown operation "purge" on the started client. *)
Lemma C5_witness :
  wf Example.started /\ ("purge" ∉ _disco_ops Example.started) /\
  set_node_handler "purge" (Some "shop@example.org") (Some "n")
      (Some Example.broken) Example.started
    = (Ok tt, Example.started) /\
  _run_node_handler "purge" (Some "shop@example.org") (Some "n") (DKwargs ∅)
      Example.started
    = (Raise (KeyError "purge"), Example.started).
Proof.
  assert (Hout : "purge" ∉ _disco_ops Example.started).
  { intros Hin. apply list_elem_of_In in Hin. vm_compute in Hin.
    repeat (destruct Hin as [Hin|Hin]; [discriminate|]). exact Hin. }
  split; [exact started_wf|]. split; [exact Hout|].
  destruct (C5_unknown_operation Example.started "purge" Hout)
    as [Hset Hrun].
  split; [apply Hset | apply (Hrun started_wf)].
Defined.

(** add_item with an empty item address, over a store that would
    reject an empty address: the call succeeds and the item is stored
    under the client's own full identifier. *)
Lemma C6_counterexample :
  fst (add_item "" "Rooms" None "" None Example.store_started) = Ok tt /\
  (storage (snd (add_item "" "Rooms" None "" None Example.store_started)))
    !! ("bot@example.org", "")
    = Some [("bot@example.org/work", "", "Rooms")].
Proof. split; vm_compute; reflexivity. Qed.

(** An inbound info query on a client whose handler raises: the error
    comes out of the dispatcher and nothing was sent. *)
Lemma C7_counterexample :
  fst (_handle_disco_info Example.always (Example.query "get" "")
         Example.faulty) = Raise (Raised "RuntimeError") /\
  sent (snd (_handle_disco_info Example.always (Example.query "get" "")
               Example.faulty)) = [].
Proof. split; vm_compute; reflexivity. Qed.

(** An inbound info query answered on the started client, and left
    unanswered on the client whose handler raises. *)
Lemma C7_witness :
  iq_type (Example.query "get" "") = "get" /\
  (exists answer st1,
     _handle_disco_info Example.always (Example.query "get" "") Example.started
       = (Ok tt, set_sent (fun l => l ++ [answer]) st1)) /\
  _handle_disco_info Example.always (Example.query "get" "") Example.faulty
    = (Raise (Raised "RuntimeError"), set_storage [] Example.faulty).
Proof.
  split; [reflexivity|]. split.
  - destruct (C7_reply_unless_handler_raises Example.always Example.started
                (Example.query "get" "") eq_refl) as (Hok & _).
    destruct (Hok (VInfo (mkDiscoInfo "" [] ["static.get_info"]))
                (set_storage ["static.get_info"; "bot@example.org"; ""]
                   Example.started)) as [answer Ha].
    + vm_compute. reflexivity.
    + right. eexists. reflexivity.
    + eauto.
  - destruct (C7_reply_unless_handler_raises Example.always Example.faulty
                (Example.query "get" "") eq_refl) as (_ & Hraise & _).
    apply Hraise. vm_compute. reflexivity.
Defined.

(** An inbound info query on the client whose handler returns an info
    result that holds nothing: the reply carries a payload, with the
    injected identity and feature. *)
Lemma C10_counterexample :
  fst (_handle_disco_info Example.always (Example.query "get" "")
         Example.hollowed) = Ok tt /\
  sent (snd (_handle_disco_info Example.always (Example.query "get" "")
               Example.hollowed))
  = [set_payload (reply (Example.query "get" ""))
       (SInfo (mkDiscoInfo "" [Identity "client" "bot" None None]
                 [namespace]))].
Proof. split; vm_compute; reflexivity. Qed.

(** An inbound info query on the client with no info handler: the
    reply that goes out is the bare reply. *)
Lemma C10_witness :
  (forall s, Example.always s = true) /\
  iq_type (Example.query "get" "") = "get" /\
  _run_node_handler "get_info" (Some "bot@example.org") (Some "")
      (DIq (Example.query "get" "")) Example.silenced
    = (Ok VNone, Example.silenced) /\
  _handle_disco_info Example.always (Example.query "get" "") Example.silenced
    = (Ok tt, set_sent (fun l => l ++ [reply (Example.query "get" "")])
                Example.silenced).
Proof.
  assert (Hrun : _run_node_handler "get_info"
                   (Some (target Example.silenced (Example.query "get" "")))
                   (Some (disco_info_node (iq_payload (Example.query "get" ""))))
                   (DIq (Example.query "get" "")) Example.silenced
                 = (Ok VNone, Example.silenced))
    by (vm_compute; reflexivity).
  split; [reflexivity|]. split; [reflexivity|]. split; [exact Hrun|].
  destruct (C10_payload_for_every_info_result Example.always Example.silenced
              (Example.query "get" "") VNone Example.silenced
              (fun s => eq_refl) eq_refl Hrun)
    as (_ & _ & Hempty & _).
  apply Hempty. reflexivity.
Defined.

(** Local queries on the client with no handler for the two queries. *)
Lemma C4_witness :
  (true = true \/ @None string = None) /\
  get_items None None true ∅ Example.silenced
    = (Ok (Local VNone), Example.silenced) /\
  get_info None None true ∅ Example.silenced
    = (Raise (TypeError "'NoneType' object is not subscriptable"),
       Example.silenced).
Proof.
  split; [now left|].
  destruct (C4_local_query_without_handler Example.silenced None None true ∅
              (or_introl eq_refl)) as [Hitems Hinfo].
  split.
  - apply (Hitems (mkTiers None ∅ ∅)); vm_compute; reflexivity.
  - apply (Hinfo (mkTiers None ∅ ∅)); vm_compute; reflexivity.
Defined.

(** * Further properties of the registry *)

Section RegistryFurther.

Context {B : Type}.
Implicit Types (st : @xep_0030 B) (e : @tiers B).
Implicit Types (op : string) (d : data).

(** What a dispatch shows, read off the entry of the operation. *)
Lemma run_outcome st op e (jid node : option string) d :
  _handlers st !! op = Some e ->
  outcome (_run_node_handler op jid node d st) =
    match resolve e (default (own_jid st) jid) (default "" node) with
    | Some h => h (default (own_jid st) jid) (default "" node) d (storage st)
    | None => (Ok VNone, storage st)
    end.
Proof.
  intros He. rewrite (run_node_handler_resolve st op e) by exact He.
  destruct (resolve e _ _) as [h|]; [|reflexivity].
  unfold call, outcome. now destruct (h _ _ _ _).
Qed.

Lemma run_outcome_unknown st op (jid node : option string) d :
  _handlers st !! op = None ->
  outcome (_run_node_handler op jid node d st)
    = (Raise (KeyError op), storage st).
Proof. intros He. now rewrite run_node_handler_unknown. Qed.

(** Two states show the same dispatch when they agree on the entry of
    the operation up to resolution at the scope, on the own address and
    on the storage. *)
Lemma run_outcome_agree st st' op (jid node : option string) d :
  own_jid st' = own_jid st -> storage st' = storage st ->
  (_handlers st !! op = None -> _handlers st' !! op = None) ->
  (forall e, _handlers st !! op = Some e ->
     exists e', _handlers st' !! op = Some e' /\
       resolve e' (default (own_jid st) jid) (default "" node)
       = resolve e (default (own_jid st) jid) (default "" node)) ->
  outcome (_run_node_handler op jid node d st')
    = outcome (_run_node_handler op jid node d st).
Proof.
  intros Hown Hsto Hnone Hsome.
  destruct (_handlers st !! op) as [e|] eqn:He.
  - destruct (Hsome e eq_refl) as (e' & He' & Hres).
    rewrite (run_outcome st' op e') by exact He'.
    rewrite (run_outcome st op e) by exact He.
    now rewrite Hown, Hsto, Hres.
  - rewrite !run_outcome_unknown; auto. now rewrite Hsto.
Qed.

(** X1. After plugin_init every supported operation is dispatched, for
    every scope, to the handler the static store provides for it: the
    handler is called with the address and the node made definite. *)
Theorem plugin_init_dispatches_static (static : string -> @handler B)
    (component : bool) (me : JID) (x : bool) (b : B) op
    (jid node : option string) d :
  op ∈ disco_ops ->
  let st0 := snd (plugin_init static (blank component me x b)) in
  plugin_init static (blank component me x b) = (Ok tt, st0) /\
  default_handlers st0 !! op = Some (static op) /\
  _run_node_handler op jid node d st0
    = call (static op) (default (own_jid st0) jid) (default "" node) d st0.
Proof.
  intros Hop st0.
  destruct (plugin_init_spec static component me x b)
    as (Hinit & _ & _ & Hlook).
  destruct (Hlook op Hop) as [He Hd].
  split; [exact Hinit|]. split; [exact Hd|].
  subst st0. rewrite (run_node_handler_resolve _ _ _ _ _ _ He).
  unfold resolve. cbn [t_node t_jid t_global]. now rewrite !lookup_empty.
Qed.

(** X2. A handler registered for a node is the one that dispatch runs
    for that node: under the given address, or, when no address was
    given, under the process's own address. *)
Theorem register_node_then_dispatch st op (jid : option string) (n : string)
    (h : @handler B) d :
  wf st -> op ∈ _disco_ops st ->
  let st' := snd (set_node_handler op jid (Some n) (Some h) st) in
  set_node_handler op jid (Some n) (Some h) st = (Ok tt, st') /\
  _run_node_handler op jid (Some n) d st'
    = call h (default (own_jid st) jid) n d st' /\
  _run_node_handler op (Some (default (own_jid st) jid)) (Some n) d st'
    = call h (default (own_jid st) jid) n d st'.
Proof.
  intros Hwf Hin. destruct (proj1 (proj1 (Hwf op)) Hin) as [e He].
  intros st'. subst st'.
  rewrite (set_node_handler_known st op e) by done. cbn [snd].
  match goal with |- context [set_handlers ?f st] =>
    set (st' := set_handlers f st) end.
  assert (He' : _handlers st' !! op
                = Some (place jid (Some n) (own_jid st) (Some h) e))
    by apply lookup_insert_eq.
  split; [reflexivity|].
  rewrite !(run_node_handler_resolve _ _ _ _ _ _ He').
  change (own_jid st') with (own_jid st). unfold resolve.
  destruct jid as [X|]; cbn; rewrite lookup_insert_eq; auto.
Qed.

(** X3. A handler registered for an address alone answers for every
    node of that address that has no handler of its own; a node that
    has one keeps it. *)
Theorem register_address_then_dispatch st op (X : string) (h : @handler B)
    e (node : option string) d :
  wf st -> op ∈ _disco_ops st -> _handlers st !! op = Some e ->
  let st' := snd (set_node_handler op (Some X) None (Some h) st) in
  (skipped (t_node e !! (X, default "" node)) ->
   _run_node_handler op (Some X) node d st'
     = call h X (default "" node) d st') /\
  (forall S, t_node e !! (X, default "" node) = Some (Some S) ->
   _run_node_handler op (Some X) node d st'
     = call S X (default "" node) d st').
Proof.
  intros Hwf Hin He.
  intros st'. subst st'.
  rewrite (set_node_handler_known st op e) by done. cbn [snd].
  match goal with |- context [set_handlers ?f st] =>
    set (st' := set_handlers f st) end.
  assert (He' : _handlers st' !! op = Some (set_jid X (Some h) e))
    by apply lookup_insert_eq.
  rewrite !(run_node_handler_resolve _ _ _ _ _ _ He').
  unfold resolve. cbn. rewrite lookup_insert_eq. split.
  - now intros [-> | ->].
  - now intros S ->.
Qed.

(** X4. A handler registered with neither address nor node answers for
    every scope that has neither a handler of its own nor one for its
    address. *)
Theorem register_global_then_dispatch st op (h : @handler B) e
    (jid node : option string) d :
  wf st -> op ∈ _disco_ops st -> _handlers st !! op = Some e ->
  skipped (t_node e !! (default (own_jid st) jid, default "" node)) ->
  skipped (t_jid e !! default (own_jid st) jid) ->
  let st' := snd (set_node_handler op None None (Some h) st) in
  _run_node_handler op jid node d st'
    = call h (default (own_jid st) jid) (default "" node) d st'.
Proof.
  intros Hwf Hin He Hn Hj.
  intros st'. subst st'.
  rewrite (set_node_handler_known st op e) by done. cbn [snd].
  match goal with |- context [set_handlers ?f st] =>
    set (st' := set_handlers f st) end.
  assert (He' : _handlers st' !! op = Some (set_global (Some h) e))
    by apply lookup_insert_eq.
  rewrite (run_node_handler_resolve _ _ _ _ _ _ He').
  change (own_jid st') with (own_jid st). unfold resolve. cbn.
  destruct Hn as [-> | ->], Hj as [-> | ->]; reflexivity.
Qed.

(** A registration either leaves the state alone (unknown operation,
    or a failed lookup) or rewrites the entry of its operation. *)
Lemma set_node_handler_cases st op (jid node : option string)
    (h : option (@handler B)) :
  snd (set_node_handler op jid node h st) = st \/
  exists e, op ∈ _disco_ops st /\ _handlers st !! op = Some e /\
    set_node_handler op jid node h st
      = (Ok tt, set_handlers <[op := place jid node (own_jid st) h e]> st).
Proof.
  destruct (decide (op ∈ _disco_ops st)) as [Hin|Hin].
  - destruct (_handlers st !! op) as [e|] eqn:He.
    + right. exists e. split; [exact Hin|]. split; [reflexivity|].
      now apply set_node_handler_known.
    + left. unfold set_node_handler, assign, bind, get, getitem.
      rewrite bool_decide_eq_true_2 by done. cbn.
      destruct jid, node; cbn; rewrite He; reflexivity.
  - left. now rewrite set_node_handler_unknown.
Qed.

Lemma resolve_set_node_other e (a n : string) (h : option (@handler B))
    (a' n' : string) :
  (a', n') <> (a, n) -> resolve (set_node a n h e) a' n' = resolve e a' n'.
Proof.
  intros Hne. unfold resolve, set_node. cbn.
  rewrite lookup_insert_ne by congruence. reflexivity.
Qed.

Lemma resolve_set_jid_other e (a : string) (h : option (@handler B))
    (a' n' : string) :
  a' <> a -> resolve (set_jid a h e) a' n' = resolve e a' n'.
Proof.
  intros Hne. unfold resolve, set_jid. cbn.
  rewrite lookup_insert_ne by congruence. reflexivity.
Qed.

Lemma resolve_clear_node e (a n a' n' : string) :
  skipped (t_node e !! (a, n)) ->
  resolve (set_node a n None e) a' n' = resolve e a' n'.
Proof.
  intros Hskip. destruct (decide ((a', n') = (a, n))) as [[= -> ->]|Hne].
  - unfold resolve, set_node. cbn. rewrite lookup_insert_eq.
    now destruct Hskip as [-> | ->].
  - now apply resolve_set_node_other.
Qed.

Lemma resolve_clear_jid e (a a' n' : string) :
  skipped (t_jid e !! a) ->
  resolve (set_jid a None e) a' n' = resolve e a' n'.
Proof.
  intros Hskip. destruct (decide (a' = a)) as [->|Hne].
  - unfold resolve, set_jid. cbn. rewrite lookup_insert_eq.
    now destruct Hskip as [-> | ->].
  - now apply resolve_set_jid_other.
Qed.

(** Dispatch after the entry of one operation was rewritten. *)
Lemma run_outcome_rewritten st op e e' op' (jid node : option string) d :
  _handlers st !! op = Some e ->
  (op' = op ->
   resolve e' (default (own_jid st) jid) (default "" node)
   = resolve e (default (own_jid st) jid) (default "" node)) ->
  outcome (_run_node_handler op' jid node d (set_handlers <[op := e']> st))
    = outcome (_run_node_handler op' jid node d st).
Proof.
  intros He Hres. apply run_outcome_agree; try reflexivity.
  - cbn. intros Hnone. rewrite lookup_insert_ne; [exact Hnone | congruence].
  - cbn. intros e0 He0. destruct (decide (op' = op)) as [->|Hne].
    + exists e'. rewrite lookup_insert_eq. split; [reflexivity|].
      assert (e0 = e) as -> by congruence. now apply Hres.
    + exists e0. rewrite lookup_insert_ne by congruence. auto.
Qed.

(** X5. A registration is local.  It does not change what dispatch
    shows for any other operation; a registration for a node does not
    change it for any other scope of the same operation; a registration
    for an address alone does not change it for any other address. *)
Theorem registration_is_local st op (jid node : option string)
    (h : option (@handler B)) :
  let st' := snd (set_node_handler op jid node h st) in
  (forall op' (jid' node' : option string) d, op' <> op ->
     outcome (_run_node_handler op' jid' node' d st')
     = outcome (_run_node_handler op' jid' node' d st)) /\
  (forall (n : string) (jid' node' : option string) d,
     node = Some n ->
     (default (own_jid st) jid', default "" node')
       <> (default (own_jid st) jid, n) ->
     outcome (_run_node_handler op jid' node' d st')
     = outcome (_run_node_handler op jid' node' d st)) /\
  (forall (X : string) (jid' node' : option string) d,
     jid = Some X -> node = None -> default (own_jid st) jid' <> X ->
     outcome (_run_node_handler op jid' node' d st')
     = outcome (_run_node_handler op jid' node' d st)).
Proof.
  intros st'. subst st'.
  destruct (set_node_handler_cases st op jid node h)
    as [-> | (e & Hin & He & ->)]; [now repeat split|].
  cbn [snd]. split; [|split].
  - intros op' jid' node' d Hne.
    apply (run_outcome_rewritten st op e); [exact He | congruence].
  - intros n jid' node' d -> Hne.
    apply (run_outcome_rewritten st op e); [exact He | intros _].
    destruct jid as [X|]; cbn [place from_option id] in *;
      now apply resolve_set_node_other.
  - intros X jid' node' d -> -> Hne.
    apply (run_outcome_rewritten st op e); [exact He | intros _].
    cbn [place]. now apply resolve_set_jid_other.
Qed.

(** X6. Registering twice in the same place is registering the last
    handler once: the second registration overwrites the first, and
    the state is the one the last registration alone would give. *)
Theorem registration_overwrites st op (jid node : option string)
    (h1 h2 : option (@handler B)) :
  bind (set_node_handler op jid node h1)
       (fun _ => set_node_handler op jid node h2) st
  = set_node_handler op jid node h2 st.
Proof.
  unfold bind at 1.
  destruct (decide (op ∈ _disco_ops st)) as [Hin|Hin].
  - destruct (_handlers st !! op) as [e|] eqn:He.
    + rewrite (set_node_handler_known st op e jid node h1) by done.
      rewrite (set_node_handler_known st op e jid node h2) by done.
      erewrite set_node_handler_known;
        [| exact Hin | cbn; apply lookup_insert_eq ].
      f_equal. unfold set_handlers. cbn. f_equal.
      rewrite insert_insert_eq. f_equal. apply place_place.
    + assert (Hfail : forall h, set_node_handler op jid node h st
                                = (Raise (KeyError op), st)).
      { intros h. unfold set_node_handler, assign, bind, get, getitem.
        rewrite bool_decide_eq_true_2 by done. cbn.
        destruct jid, node; cbn; rewrite He; reflexivity. }
      now rewrite !Hfail.
  - now rewrite !set_node_handler_unknown.
Qed.

(** X7. Registering a handler where there was none and removing it
    again gives back the behaviour of before, for every operation and
    every scope.  The state is not the one of before: the removal leaves
    the key in place, holding None. *)
Theorem register_then_remove st op e (h : option (@handler B)) :
  op ∈ _disco_ops st -> _handlers st !! op = Some e ->
  (forall (jid : option string) (n : string),
     skipped (t_node e !! (default (own_jid st) jid, n)) ->
     let st2 := snd (del_node_handler op jid (Some n)
                       (snd (set_node_handler op jid (Some n) h st))) in
     (exists e2, _handlers st2 !! op = Some e2 /\
                 t_node e2 !! (default (own_jid st) jid, n) = Some None) /\
     forall op' (jid' node' : option string) d,
       outcome (_run_node_handler op' jid' node' d st2)
       = outcome (_run_node_handler op' jid' node' d st)) /\
  (forall X : string,
     skipped (t_jid e !! X) ->
     let st2 := snd (del_node_handler op (Some X) None
                       (snd (set_node_handler op (Some X) None h st))) in
     (exists e2, _handlers st2 !! op = Some e2 /\
                 t_jid e2 !! X = Some None) /\
     forall op' (jid' node' : option string) d,
       outcome (_run_node_handler op' jid' node' d st2)
       = outcome (_run_node_handler op' jid' node' d st)).
Proof.
  intros Hin He.
  assert (Htwice : forall jid node,
            snd (del_node_handler op jid node
                   (snd (set_node_handler op jid node h st)))
            = set_handlers <[op := place jid node (own_jid st) None e]> st).
  { intros jid node. unfold del_node_handler.
    rewrite (set_node_handler_known st op e jid node h) by done. cbn [snd].
    erewrite set_node_handler_known;
      [| exact Hin | cbn; apply lookup_insert_eq ].
    cbn [snd]. unfold set_handlers. cbn. f_equal.
    rewrite insert_insert_eq. f_equal. apply place_place. }
  split.
  - intros jid n Hskip st2. subst st2. rewrite Htwice. split.
    + eexists. split; [cbn; apply lookup_insert_eq|].
      destruct jid; cbn; apply lookup_insert_eq.
    + intros op' jid' node' d.
      apply (run_outcome_rewritten st op e); [exact He | intros _].
      destruct jid as [X|]; cbn [place from_option id] in *;
        now apply resolve_clear_node.
  - intros X Hskip st2. subst st2. rewrite Htwice. split.
    + eexists. split; [cbn; apply lookup_insert_eq|].
      cbn. apply lookup_insert_eq.
    + intros op' jid' node' d.
      apply (run_outcome_rewritten st op e); [exact He | intros _].
      cbn [place]. now apply resolve_clear_jid.
Qed.

(** X8. In a state whose tables hold the supported operations a
    registration never raises, keeps the tables in that shape, and
    changes nothing but the handler table: the defaults, the list of
    operations, the storage and what was sent stay as they were. *)
Theorem registration_keeps_tables st op (jid node : option string)
    (h : option (@handler B)) :
  wf st ->
  fst (set_node_handler op jid node h st) = Ok tt /\
  wf (snd (set_node_handler op jid node h st)) /\
  same_but_handlers st (snd (set_node_handler op jid node h st)) /\
  forall op', is_Some (_handlers (snd (set_node_handler op jid node h st))
                         !! op')
              <-> is_Some (_handlers st !! op').
Proof.
  intros Hwf. destruct (decide (op ∈ _disco_ops st)) as [Hin|Hin].
  - destruct (proj1 (proj1 (Hwf op)) Hin) as [e He].
    rewrite (set_node_handler_known st op e) by done. cbn [fst snd].
    split; [reflexivity|]. split; [eapply wf_set_handlers; eauto|].
    split; [reflexivity|].
    intros op'. cbn. rewrite lookup_insert. case_decide; [subst|reflexivity].
    rewrite He. split; eauto.
  - rewrite set_node_handler_unknown by done. cbn [fst snd].
    split; [reflexivity|]. split; [exact Hwf|]. split; [now destruct st|].
    reflexivity.
Qed.

End RegistryFurther.

(** * Further properties of restore_defaults and _add_disco_op *)

Section DefaultsFurther.

Context {B : Type}.
Implicit Types (st : @xep_0030 B) (e : @tiers B).
Implicit Types (op : string) (d : data).

Lemma for_each_app {A : Type} (l1 l2 : list A) (body : A -> @M B unit) st :
  for_each (l1 ++ l2) body st
  = bind (for_each l1 body) (fun _ => for_each l2 body) st.
Proof.
  revert st. induction l1 as [|x l1 IH]; intros st; [reflexivity|].
  cbn. unfold bind in *. destruct (body x st) as [[u|err] st1];
    [apply IH | reflexivity].
Qed.

(** The default of an operation outside the supported ones is missing,
    so restoring it stops at the lookup of the default. *)
Lemma restore_op_unknown st op (jid node : option string) :
  wf st -> op ∉ _disco_ops st ->
  restore_op jid node op st = (Raise (KeyError op), st).
Proof.
  intros Hwf Hout. unfold restore_op, del_node_handler.
  unfold bind at 1. rewrite set_node_handler_unknown by exact Hout.
  unfold bind at 1. unfold get at 1. unfold bind at 1. unfold getitem.
  destruct (default_handlers st !! op) as [dflt|] eqn:Hd; [|reflexivity].
  exfalso. apply Hout. apply (proj2 (proj2 (Hwf op))). rewrite Hd. eauto.
Qed.

(** X9. restore_defaults with a list that names an unsupported
    operation raises KeyError for it, and does so half way: the
    operations listed before it are already restored, the ones listed
    after it are not touched. *)
Theorem restore_defaults_stops_at_unknown st (jid node : option string)
    (before after : list string) (bad : string) :
  wf st -> (forall op, op ∈ before -> op ∈ _disco_ops st) ->
  bad ∉ _disco_ops st ->
  exists st',
    restore_defaults jid node (Some (before ++ bad :: after)) st
      = (Raise (KeyError bad), st') /\
    restore_defaults jid node (Some before) st = (Ok tt, st') /\
    forall op e, _handlers st !! op = Some e ->
      (op ∈ before -> forall dflt, default_handlers st !! op = Some dflt ->
         _handlers st' !! op
           = Some (place jid node (own_jid st) (Some dflt) e)) /\
      (op ∉ before -> _handlers st' !! op = Some e).
Proof.
  intros Hwf Hbefore Hbad.
  destruct (restore_loop jid node before st Hwf Hbefore)
    as (st' & Hrun & Hsame & Hwf' & Hlook).
  exists st'. split; [|split; [exact Hrun | exact Hlook]].
  unfold restore_defaults. unfold bind at 1. unfold get at 1.
  rewrite for_each_app. unfold bind at 1. rewrite Hrun.
  cbn [for_each]. unfold bind at 1.
  rewrite restore_op_unknown; [reflexivity | exact Hwf' |].
  rewrite Hsame. exact Hbad.
Qed.

(** X10. restore_defaults is idempotent: doing it a second time with
    the same arguments changes nothing more. *)
Theorem restore_defaults_idempotent st (jid node : option string)
    (handlers : option (list string)) :
  wf st ->
  (forall l, handlers = Some l -> forall op, op ∈ l -> op ∈ _disco_ops st) ->
  bind (restore_defaults jid node handlers)
       (fun _ => restore_defaults jid node handlers) st
  = restore_defaults jid node handlers st.
Proof.
  intros Hwf Hl.
  set (l := default (_disco_ops st) handlers).
  assert (Hsub : forall op, op ∈ l -> op ∈ _disco_ops st).
  { subst l. destruct handlers as [l0|]; cbn; [now apply Hl | auto]. }
  destruct (restore_loop jid node l st Hwf Hsub)
    as (st1 & Hrun1 & Hsame1 & Hwf1 & Hlook1).
  assert (Hops : _disco_ops st1 = _disco_ops st) by now rewrite Hsame1.
  assert (Hdef : default_handlers st1 = default_handlers st)
    by now rewrite Hsame1.
  assert (Hown : own_jid st1 = own_jid st) by now rewrite Hsame1.
  assert (Hsub1 : forall op, op ∈ l -> op ∈ _disco_ops st1)
    by (intros op Hop; rewrite Hops; auto).
  destruct (restore_loop jid node l st1 Hwf1 Hsub1)
    as (st2 & Hrun2 & Hsame2 & Hwf2 & Hlook2).
  assert (Hr : forall s : @xep_0030 B, _disco_ops s = _disco_ops st ->
             restore_defaults jid node handlers s
             = for_each l (restore_op jid node) s).
  { intros s Hs. unfold restore_defaults, bind, get. subst l.
    destruct handlers; cbn; [reflexivity | now rewrite Hs]. }
  unfold bind. rewrite (Hr st eq_refl), Hrun1, (Hr st1 Hops), Hrun2.
  f_equal. rewrite Hsame2. unfold set_handlers. destruct st1; cbn. f_equal.
  cbn in *. apply map_eq. intros op.
  destruct (_handlers0 !! op) as [e1|] eqn:He1.
  - destruct (decide (op ∈ l)) as [Hop|Hop].
    + destruct (proj1 (proj1 (Hwf op)) (Hsub op Hop)) as [e He].
      destruct (proj1 (proj2 (Hwf op)) (Hsub op Hop)) as [dflt Hd].
      destruct (Hlook1 op e He) as [Hin1 _].
      specialize (Hin1 Hop dflt Hd). cbn in Hin1.
      assert (e1 = place jid node (own_jid st) (Some dflt) e) as ->
        by congruence.
      destruct (Hlook2 op _ He1) as [Hin2 _].
      rewrite (Hin2 Hop dflt); [| now rewrite Hdef].
      rewrite Hown. now rewrite place_place.
    + destruct (Hlook2 op _ He1) as [_ Hout2]. now apply Hout2.
  - destruct (_handlers st2 !! op) as [e2|] eqn:He2; [|reflexivity].
    exfalso.
    assert (Hin : op ∈ _disco_ops st2)
      by (apply (proj2 (proj1 (Hwf2 op))); rewrite He2; eauto).
    rewrite Hsame2 in Hin. cbn in Hin.
    destruct (proj1 (proj1 (Hwf1 op)) Hin) as [e1 He1']. cbn in He1'.
    congruence.
Qed.

(** X11. After restore_defaults for a node (under a given address, or
    under the process's own address when none is given), every
    supported operation is dispatched at that scope to its default
    handler, whatever was registered before. *)
Theorem restore_defaults_node_dispatch st (jid : option string) (n : string)
    op dflt d :
  wf st -> op ∈ _disco_ops st -> default_handlers st !! op = Some dflt ->
  exists st',
    restore_defaults jid (Some n) None st = (Ok tt, st') /\
    _run_node_handler op jid (Some n) d st'
      = call dflt (default (own_jid st) jid) n d st'.
Proof.
  intros Hwf Hin Hd.
  destruct (restore_loop jid (Some n) (_disco_ops st) st Hwf)
    as (st' & Hrun & Hsame & _ & Hlook); [auto|].
  exists st'. split; [exact Hrun|].
  destruct (proj1 (proj1 (Hwf op)) Hin) as [e He].
  destruct (Hlook op e He) as [Hset _]. specialize (Hset Hin dflt Hd).
  rewrite (run_node_handler_resolve _ _ _ _ _ _ Hset).
  assert (Hown : own_jid st' = own_jid st) by now rewrite Hsame.
  rewrite Hown. unfold resolve.
  destruct jid as [X|]; cbn; now rewrite lookup_insert_eq.
Qed.

(** X12. restore_defaults for an address alone puts the defaults in
    the per-address tier: a node of that address that has a handler of
    its own keeps it, every other node of the address gets the default
    handler. *)
Theorem restore_defaults_address_dispatch st (X : string) op e dflt
    (node : option string) d :
  wf st -> op ∈ _disco_ops st -> _handlers st !! op = Some e ->
  default_handlers st !! op = Some dflt ->
  exists st',
    restore_defaults (Some X) None None st = (Ok tt, st') /\
    (forall S, t_node e !! (X, default "" node) = Some (Some S) ->
       _run_node_handler op (Some X) node d st'
         = call S X (default "" node) d st') /\
    (skipped (t_node e !! (X, default "" node)) ->
       _run_node_handler op (Some X) node d st'
         = call dflt X (default "" node) d st').
Proof.
  intros Hwf Hin He Hd.
  destruct (restore_loop (Some X) None (_disco_ops st) st Hwf)
    as (st' & Hrun & _ & _ & Hlook); [auto|].
  exists st'. split; [exact Hrun|].
  destruct (Hlook op e He) as [Hset _]. specialize (Hset Hin dflt Hd).
  rewrite !(run_node_handler_resolve _ _ _ _ _ _ Hset).
  unfold resolve. cbn. rewrite lookup_insert_eq. split.
  - now intros S ->.
  - now intros [-> | ->].
Qed.

(** X13. _add_disco_op does not extend the list of supported
    operations.  An operation added with it is dispatched to its
    default handler at every scope, and a registration for it is
    ignored, so that handler cannot be overridden. *)
Theorem add_disco_op_cannot_be_overridden st op (dflt : @handler B) :
  op ∉ _disco_ops st ->
  let st1 := snd (_add_disco_op op dflt st) in
  _add_disco_op op dflt st = (Ok tt, st1) /\
  _disco_ops st1 = _disco_ops st /\
  (forall (jid node : option string) d,
     _run_node_handler op jid node d st1
       = call dflt (default (own_jid st) jid) (default "" node) d st1) /\
  (forall (jid node : option string) (h : option (@handler B)),
     set_node_handler op jid node h st1 = (Ok tt, st1)).
Proof.
  intros Hout st1. subst st1. cbn [snd _add_disco_op].
  split; [reflexivity|]. split; [reflexivity|]. split.
  - intros jid node d.
    erewrite run_node_handler_resolve; [| cbn; apply lookup_insert_eq ].
    unfold resolve. cbn. now rewrite !lookup_empty.
  - intros jid node h. now apply set_node_handler_unknown.
Qed.

(** X14. _add_disco_op on an operation starts its entry afresh: the
    handlers registered for it before, for any address or node, are
    gone, and every scope is dispatched to the new default. *)
Theorem add_disco_op_resets_entry st op (dflt : @handler B)
    (jid node : option string) d :
  let st1 := snd (_add_disco_op op dflt st) in
  _handlers st1 !! op = Some (mkTiers (Some dflt) ∅ ∅) /\
  default_handlers st1 !! op = Some dflt /\
  _run_node_handler op jid node d st1
    = call dflt (default (own_jid st) jid) (default "" node) d st1.
Proof.
  intros st1. subst st1. cbn [snd _add_disco_op].
  assert (He : _handlers (snd (_add_disco_op op dflt st)) !! op
               = Some (mkTiers (Some dflt) ∅ ∅))
    by (cbn; apply lookup_insert_eq).
  split; [exact He|]. split; [cbn; apply lookup_insert_eq|].
  rewrite (run_node_handler_resolve _ _ _ _ _ _ He).
  unfold resolve. cbn. now rewrite !lookup_empty.
Qed.

End DefaultsFurther.

(** * Further properties of the dispatcher *)

Section DispatcherFurther.

Context {B : Type}.
Variable stanza_bool : stanza -> bool.
Implicit Types (st : @xep_0030 B) (e : @tiers B).
Implicit Types (d : data) (iq : Iq).

Lemma run_unhandled st op (jid node : option string) d :
  unhandled st op (default (own_jid st) jid) (default "" node) ->
  _run_node_handler op jid node d st = (Ok VNone, st).
Proof.
  intros (e & He & Hnone).
  now rewrite (run_node_handler_resolve st op e) by exact He; rewrite Hnone.
Qed.

(** X15. A call that changes the contents of a node, made for a scope
    at which nothing resolves for its operation, returns normally and
    changes nothing: no handler is called and no error is raised. *)
Theorem mutators_without_handler st (jid node : option string)
    (kwargs : gmap string pyarg) :
  let a := default (own_jid st) jid in
  let n := default "" node in
  (unhandled st "set_items" a n -> set_items jid node kwargs st = (Ok tt, st))
  /\ (unhandled st "del_items" a n ->
      del_items jid node kwargs st = (Ok tt, st))
  /\ (unhandled st "del_item" a n ->
      del_item jid node kwargs st = (Ok tt, st))
  /\ (unhandled st "del_identity" a n ->
      del_identity jid node kwargs st = (Ok tt, st))
  /\ (unhandled st "del_feature" a n ->
      del_feature jid node kwargs st = (Ok tt, st))
  /\ (unhandled st "set_identities" a n ->
      set_identities jid node kwargs st = (Ok tt, st))
  /\ (unhandled st "del_identities" a n ->
      del_identities jid node kwargs st = (Ok tt, st))
  /\ (unhandled st "set_features" a n ->
      set_features jid node kwargs st = (Ok tt, st))
  /\ (unhandled st "del_features" a n ->
      del_features jid node kwargs st = (Ok tt, st))
  /\ (forall item name subnode : string, unhandled st "add_item" a n ->
      add_item item name node subnode jid st = (Ok tt, st))
  /\ (forall (category itype name : string) (lang : option string),
      unhandled st "add_identity" a n ->
      add_identity category itype name node jid lang st = (Ok tt, st))
  /\ (forall feature : string, unhandled st "add_feature" a n ->
      add_feature feature node jid st = (Ok tt, st)).
Proof.
  intros a n. subst a n.
  repeat split; intros;
    unfold set_items, del_items, del_item, del_identity, del_feature,
      set_identities, del_identities, set_features, del_features,
      add_item, add_identity, add_feature;
    unfold bind, get; cbv beta iota;
    rewrite run_unhandled by assumption; reflexivity.
Qed.

(** X16. An inbound stanza that is not a get never gets a reply and
    never reaches a handler: a result fires one event that carries the
    stanza, under the name of its kind; any other type is dropped
    without a trace. *)
Theorem inbound_other_than_get st iq :
  (iq_type iq = "result" ->
   _handle_disco_info stanza_bool iq st
     = (Ok tt, set_events (fun l => l ++ [("disco_info", iq)]) st) /\
   _handle_disco_items stanza_bool iq st
     = (Ok tt, set_events (fun l => l ++ [("disco_items", iq)]) st)) /\
  (iq_type iq <> "get" -> iq_type iq <> "result" ->
   _handle_disco_info stanza_bool iq st = (Ok tt, st) /\
   _handle_disco_items stanza_bool iq st = (Ok tt, st)).
Proof.
  unfold _handle_disco_info, _handle_disco_items. split.
  - intros Hres. rewrite bool_decide_eq_false_2 by (rewrite Hres; discriminate).
    rewrite bool_decide_eq_true_2 by exact Hres. split; reflexivity.
  - intros Hget Hres. rewrite !bool_decide_eq_false_2 by assumption.
    split; reflexivity.
Qed.

(** X17. The reply to an inbound items get query carries what the
    handler returned as it is: default injection is not applied on
    this path, whatever kind of result the handler returned; a result
    that counts as false gives a reply with no payload. *)
Theorem inbound_items_reply_verbatim st iq (v : value) st1 :
  iq_type iq = "get" ->
  _run_node_handler "get_items" (Some (target st iq))
    (Some (disco_items_node (iq_payload iq))) (DIq iq) st = (Ok v, st1) ->
  (truthy stanza_bool v = false ->
     _handle_disco_items stanza_bool iq st
       = (Ok tt, set_sent (fun l => l ++ [reply iq]) st1)) /\
  (forall it, v = VItems it -> truthy stanza_bool v = true ->
     _handle_disco_items stanza_bool iq st
       = (Ok tt, set_sent (fun l => l ++ [set_payload (reply iq) (SItems it)])
                   st1)) /\
  (forall i, v = VInfo i -> truthy stanza_bool v = true ->
     _handle_disco_items stanza_bool iq st
       = (Ok tt, set_sent (fun l => l ++ [set_payload (reply iq) (SInfo i)])
                   st1)).
Proof.
  intros Hget Hrun.
  assert (Hstep : _handle_disco_items stanza_bool iq st
                  = bind (if truthy stanza_bool v
                          then bind (xml v)
                                 (fun x => ret (set_payload (reply iq) x))
                          else ret (reply iq))
                         (fun answer => send answer) st1).
  { unfold _handle_disco_items.
    rewrite bool_decide_eq_true_2 by exact Hget.
    unfold bind at 1. unfold get at 1. unfold bind at 1.
    fold (target st iq). rewrite Hrun. reflexivity. }
  rewrite Hstep. split; [|split].
  - intros Hv. rewrite Hv. reflexivity.
  - intros it -> Hv. rewrite Hv. reflexivity.
  - intros i -> Hv. rewrite Hv. reflexivity.
Qed.

(** Default injection looks at the mode of the plugin and at nothing
    else of its state. *)
Lemma fix_default_info_mode st st' (i : DiscoInfo) :
  is_component st = is_component st' ->
  exists i',
    _fix_default_info (VInfo i) st = (Ok (VInfo i'), st) /\
    _fix_default_info (VInfo i) st' = (Ok (VInfo i'), st').
Proof.
  intros Hmode. destruct i as [node ids fs]. unfold _fix_default_info.
  unfold bind, get, get_node, ret. cbn. rewrite <- Hmode.
  destruct (bool_decide (node = "")); [|eauto].
  destruct ids as [|x ids]; cbn;
    destruct (is_component st); cbn;
    destruct fs as [|f fs]; cbn; eauto.
Qed.

(** X18. After default injection an info result with an empty node has
    at least one identity and at least one feature, as the protocol
    asks; what the result held before is still in it; and injecting a
    second time changes nothing. *)
Theorem default_injection_fills_and_settles st (i : DiscoInfo) :
  exists i',
    _fix_default_info (VInfo i) st = (Ok (VInfo i'), st) /\
    (info_node i = "" ->
       info_identities i' <> [] /\ info_features i' <> []) /\
    (forall x, x ∈ info_identities i -> x ∈ info_identities i') /\
    (forall f, f ∈ info_features i -> f ∈ info_features i') /\
    _fix_default_info (VInfo i') st = (Ok (VInfo i'), st).
Proof.
  destruct i as [node ids fs]. cbn [info_node info_identities info_features].
  destruct (decide (node = "")) as [->|Hnode].
  - destruct ids as [|x ids], fs as [|f fs], (is_component st) eqn:Hc;
      (eexists; split;
       [ unfold _fix_default_info, bind, get, get_node, ret; cbn;
         rewrite ?Hc; cbn; reflexivity
       | cbn [info_identities info_features];
         split; [intros _; split; discriminate|];
         split; [intros y Hy; first [exact Hy | now apply elem_of_nil in Hy]|];
         split; [intros y Hy; first [exact Hy | now apply elem_of_nil in Hy]|];
         unfold _fix_default_info, bind, get, get_node, ret; cbn;
         rewrite ?Hc; cbn; reflexivity ]).
  - assert (Hfix : _fix_default_info (VInfo (mkDiscoInfo node ids fs)) st
                   = (Ok (VInfo (mkDiscoInfo node ids fs)), st)).
    { unfold _fix_default_info, bind, get, get_node, ret. cbn.
      now rewrite bool_decide_eq_false_2. }
    exists (mkDiscoInfo node ids fs). split; [exact Hfix|].
    split; [intros Hn; cbn in Hn; congruence|]. auto.
Qed.

(** X19. The local and the inbound path agree: when the handler gives
    the same info result to a local get_info and to an inbound get
    query, and that result counts as true, the info that get_info
    returns is the payload of the reply that is sent. *)
Theorem local_and_inbound_info_agree st iq (jid node : option string)
    (kwargs : gmap string pyarg) (i : DiscoInfo) st1 st2 :
  iq_type iq = "get" ->
  truthy stanza_bool (VInfo i) = true ->
  _run_node_handler "get_info" jid node (DKwargs kwargs) st
    = (Ok (VInfo i), st1) ->
  _run_node_handler "get_info" (Some (target st iq))
    (Some (disco_info_node (iq_payload iq))) (DIq iq) st
    = (Ok (VInfo i), st2) ->
  exists i',
    get_info jid node true kwargs st = (Ok (Local (VInfo i')), st1) /\
    _handle_disco_info stanza_bool iq st
      = (Ok tt, set_sent (fun l => l ++ [set_payload (reply iq) (SInfo i')])
                  st2).
Proof.
  intros Hget Htrue Hlocal Hin.
  assert (Hmode : is_component st1 = is_component st2).
  { rewrite (run_node_handler_frame _ _ _ _ _ _ _ Hlocal).
    rewrite (run_node_handler_frame _ _ _ _ _ _ _ Hin). reflexivity. }
  destruct (fix_default_info_mode st1 st2 i Hmode) as (i' & H1 & H2).
  exists i'. split.
  - unfold get_info. cbn [orb]. unfold bind at 1. rewrite Hlocal.
    unfold bind at 1. now rewrite H1.
  - now apply (handle_disco_info_filled stanza_bool st iq i).
Qed.

End DispatcherFurther.

(** * The further properties on the concrete plugins *)

Lemma started_get_info_entry :
  _handlers Example.started !! "get_info"
  = Some (mkTiers (Some (Example.static "get_info")) ∅ ∅).
Proof. vm_compute. reflexivity. Qed.

Lemma started_get_info_default :
  default_handlers Example.started !! "get_info"
  = Some (Example.static "get_info").
Proof. vm_compute. reflexivity. Qed.

Lemma started_get_info_in : "get_info" ∈ _disco_ops Example.started.
Proof. apply get_info_supported. reflexivity. Qed.

Lemma purge_not_supported : "purge" ∉ _disco_ops Example.started.
Proof.
  intros Hin. apply list_elem_of_In in Hin. vm_compute in Hin.
  repeat (destruct Hin as [Hin|Hin]; [discriminate|]). exact Hin.
Qed.

(** The started client answers get_info from the static store. *)
Lemma plugin_init_dispatches_static_witness :
  "get_info" ∈ disco_ops /\
  _run_node_handler "get_info" None None (DKwargs ∅) Example.started
    = call (Example.static "get_info") "bot@example.org" "" (DKwargs ∅)
        Example.started.
Proof.
  assert (Hin : "get_info" ∈ disco_ops) by (apply list_elem_of_In; now left).
  split; [exact Hin|].
  apply (plugin_init_dispatches_static Example.static false Example.me false []
           "get_info" None None (DKwargs ∅) Hin).
Defined.

(** A handler registered for node "n" without an address is run for
    node "n" of the client's own address. *)
Lemma register_node_then_dispatch_witness :
  wf Example.started /\ "get_info" ∈ _disco_ops Example.started /\
  _run_node_handler "get_info" (Some "bot@example.org") (Some "n") (DKwargs ∅)
    (snd (set_node_handler "get_info" None (Some "n")
            (Some (Example.answer "S")) Example.started))
  = call (Example.answer "S") "bot@example.org" "n" (DKwargs ∅)
      (snd (set_node_handler "get_info" None (Some "n")
              (Some (Example.answer "S")) Example.started)).
Proof.
  split; [exact started_wf|]. split; [exact started_get_info_in|].
  apply (register_node_then_dispatch Example.started "get_info" None "n"
           (Example.answer "S") (DKwargs ∅) started_wf started_get_info_in).
Defined.

(** A handler registered for the shop answers for its node "other". *)
Lemma register_address_then_dispatch_witness :
  wf Example.started /\ "get_info" ∈ _disco_ops Example.started /\
  _handlers Example.started !! "get_info"
    = Some (mkTiers (Some (Example.static "get_info")) ∅ ∅) /\
  _run_node_handler "get_info" (Some "shop@example.org") (Some "other")
    (DKwargs ∅)
    (snd (set_node_handler "get_info" (Some "shop@example.org") None
            (Some (Example.answer "A")) Example.started))
  = call (Example.answer "A") "shop@example.org" "other" (DKwargs ∅)
      (snd (set_node_handler "get_info" (Some "shop@example.org") None
              (Some (Example.answer "A")) Example.started)).
Proof.
  split; [exact started_wf|]. split; [exact started_get_info_in|].
  split; [exact started_get_info_entry|].
  destruct (register_address_then_dispatch Example.started "get_info"
              "shop@example.org" (Example.answer "A") _ (Some "other")
              (DKwargs ∅) started_wf started_get_info_in
              started_get_info_entry) as [Hfree _].
  apply Hfree. left. reflexivity.
Defined.

(** A global handler answers for a scope nothing else is registered for. *)
Lemma register_global_then_dispatch_witness :
  wf Example.started /\ "get_info" ∈ _disco_ops Example.started /\
  _handlers Example.started !! "get_info"
    = Some (mkTiers (Some (Example.static "get_info")) ∅ ∅) /\
  _run_node_handler "get_info" (Some "bank@example.org") (Some "n")
    (DKwargs ∅)
    (snd (set_node_handler "get_info" None None
            (Some (Example.answer "G")) Example.started))
  = call (Example.answer "G") "bank@example.org" "n" (DKwargs ∅)
      (snd (set_node_handler "get_info" None None
              (Some (Example.answer "G")) Example.started)).
Proof.
  split; [exact started_wf|]. split; [exact started_get_info_in|].
  split; [exact started_get_info_entry|].
  apply (register_global_then_dispatch Example.started "get_info"
           (Example.answer "G") _ (Some "bank@example.org") (Some "n")
           (DKwargs ∅) started_wf started_get_info_in started_get_info_entry);
    left; reflexivity.
Defined.

(** Registering a handler for (shop, n) and removing it again leaves
    the started client answering as before. *)
Lemma register_then_remove_witness :
  "get_info" ∈ _disco_ops Example.started /\
  _handlers Example.started !! "get_info"
    = Some (mkTiers (Some (Example.static "get_info")) ∅ ∅) /\
  outcome (_run_node_handler "get_info" (Some "shop@example.org") (Some "n")
             (DKwargs ∅)
             (snd (del_node_handler "get_info" (Some "shop@example.org")
                     (Some "n")
                (snd (set_node_handler "get_info" (Some "shop@example.org")
                        (Some "n") (Some (Example.answer "S"))
                        Example.started)))))
  = outcome (_run_node_handler "get_info" (Some "shop@example.org") (Some "n")
               (DKwargs ∅) Example.started).
Proof.
  split; [exact started_get_info_in|]. split; [exact started_get_info_entry|].
  destruct (register_then_remove Example.started "get_info" _
              (Some (Example.answer "S")) started_get_info_in
              started_get_info_entry) as [Hnode _].
  pose proof (Hnode (Some "shop@example.org") "n" (or_introl eq_refl))
    as Hback.
  cbv zeta in Hback. destruct Hback as [_ Hsame]. apply Hsame.
Defined.

(** Removing the global get_info handler of the started client does
    not raise. *)
Lemma registration_keeps_tables_witness :
  wf Example.started /\
  fst (set_node_handler "get_info" None None None Example.started) = Ok tt.
Proof.
  split; [exact started_wf|].
  exact (proj1 (registration_keeps_tables Example.started "get_info"
                  None None None started_wf)).
Defined.

(** Restoring get_info, the unknown "purge" and get_items, in that
    order, stops at "purge" with get_info restored. *)
Lemma restore_defaults_stops_at_unknown_witness :
  wf Example.started /\ ("purge" ∉ _disco_ops Example.started) /\
  exists st',
    restore_defaults (Some "shop@example.org") (Some "n")
      (Some (["get_info"] ++ "purge" :: ["get_items"])) Example.started
      = (Raise (KeyError "purge"), st') /\
    restore_defaults (Some "shop@example.org") (Some "n")
      (Some ["get_info"]) Example.started = (Ok tt, st').
Proof.
  split; [exact started_wf|]. split; [exact purge_not_supported|].
  destruct (restore_defaults_stops_at_unknown Example.started
              (Some "shop@example.org") (Some "n") ["get_info"]
              ["get_items"] "purge" started_wf)
    as (st' & Hstop & Hdone & _).
  - intros op Hop. apply list_elem_of_singleton in Hop. subst op.
    exact started_get_info_in.
  - exact purge_not_supported.
  - exists st'. split; [exact Hstop | exact Hdone].
Defined.

(** Restoring the defaults of (shop, n) twice is restoring them once. *)
Lemma restore_defaults_idempotent_witness :
  wf Example.started /\
  bind (restore_defaults (Some "shop@example.org") (Some "n") None)
       (fun _ => restore_defaults (Some "shop@example.org") (Some "n") None)
       Example.started
  = restore_defaults (Some "shop@example.org") (Some "n") None
      Example.started.
Proof.
  split; [exact started_wf|].
  apply (restore_defaults_idempotent Example.started
           (Some "shop@example.org") (Some "n") None started_wf).
  intros l Hl. discriminate Hl.
Defined.

(** After restoring the defaults of node "n" of the client itself,
    get_info for that node goes to the static handler. *)
Lemma restore_defaults_node_dispatch_witness :
  wf Example.started /\ "get_info" ∈ _disco_ops Example.started /\
  default_handlers Example.started !! "get_info"
    = Some (Example.static "get_info") /\
  exists st',
    restore_defaults None (Some "n") None Example.started = (Ok tt, st') /\
    _run_node_handler "get_info" None (Some "n") (DKwargs ∅) st'
      = call (Example.static "get_info") "bot@example.org" "n" (DKwargs ∅) st'.
Proof.
  split; [exact started_wf|]. split; [exact started_get_info_in|].
  split; [exact started_get_info_default|].
  exact (restore_defaults_node_dispatch Example.started None "n" "get_info"
           (Example.static "get_info") (DKwargs ∅) started_wf
           started_get_info_in started_get_info_default).
Defined.

(** After restoring the defaults of the shop, its node "n", which has
    no handler of its own, goes to the static handler. *)
Lemma restore_defaults_address_dispatch_witness :
  wf Example.started /\ "get_info" ∈ _disco_ops Example.started /\
  _handlers Example.started !! "get_info"
    = Some (mkTiers (Some (Example.static "get_info")) ∅ ∅) /\
  default_handlers Example.started !! "get_info"
    = Some (Example.static "get_info") /\
  exists st',
    restore_defaults (Some "shop@example.org") None None Example.started
      = (Ok tt, st') /\
    _run_node_handler "get_info" (Some "shop@example.org") (Some "n")
        (DKwargs ∅) st'
      = call (Example.static "get_info") "shop@example.org" "n" (DKwargs ∅)
          st'.
Proof.
  split; [exact started_wf|]. split; [exact started_get_info_in|].
  split; [exact started_get_info_entry|].
  split; [exact started_get_info_default|].
  destruct (restore_defaults_address_dispatch Example.started
              "shop@example.org" "get_info" _ (Example.static "get_info")
              (Some "n") (DKwargs ∅) started_wf started_get_info_in
              started_get_info_entry started_get_info_default)
    as (st' & Hrun & _ & Hfree).
  exists st'. split; [exact Hrun|]. apply Hfree. left. reflexivity.
Defined.

(** An operation "purge" added to the started client cannot be given
    another handler. *)
Lemma add_disco_op_cannot_be_overridden_witness :
  ("purge" ∉ _disco_ops Example.started) /\
  set_node_handler "purge" None None (Some Example.broken)
    (snd (_add_disco_op "purge" (Example.answer "P") Example.started))
  = (Ok tt, snd (_add_disco_op "purge" (Example.answer "P") Example.started)).
Proof.
  split; [exact purge_not_supported|].
  pose proof (add_disco_op_cannot_be_overridden Example.started "purge"
                (Example.answer "P") purge_not_supported) as Hadd.
  cbv zeta in Hadd. destruct Hadd as (_ & _ & _ & Hset). apply Hset.
Defined.

(** The started client answers an inbound items query with what its
    handler returned, identities and all left as they were. *)
Lemma inbound_items_reply_verbatim_witness :
  iq_type (Example.query "get" "") = "get" /\
  _handle_disco_items Example.always (Example.query "get" "") Example.started
  = (Ok tt,
     set_sent
       (fun l => l ++ [set_payload (reply (Example.query "get" ""))
                         (SInfo (mkDiscoInfo "" [] ["static.get_items"]))])
       (set_storage ["static.get_items"; "bot@example.org"; ""]
          Example.started)).
Proof.
  split; [reflexivity|].
  destruct (inbound_items_reply_verbatim Example.always Example.started
              (Example.query "get" "")
              (VInfo (mkDiscoInfo "" [] ["static.get_items"]))
              (set_storage ["static.get_items"; "bot@example.org"; ""]
                 Example.started) eq_refl) as (_ & _ & Hinfo).
  - vm_compute. reflexivity.
  - apply Hinfo; reflexivity.
Defined.

(** On the started client the local get_info and the reply to an
    inbound query carry the same info. *)
Lemma local_and_inbound_info_agree_witness :
  iq_type (Example.query "get" "") = "get" /\
  exists i',
    get_info None None true ∅ Example.started
      = (Ok (Local (VInfo i')),
         set_storage ["static.get_info"; "bot@example.org"; ""]
           Example.started) /\
    _handle_disco_info Example.always (Example.query "get" "") Example.started
      = (Ok tt,
         set_sent
           (fun l => l ++ [set_payload (reply (Example.query "get" ""))
                             (SInfo i')])
           (set_storage ["static.get_info"; "bot@example.org"; ""]
              Example.started)).
Proof.
  split; [reflexivity|].
  apply (local_and_inbound_info_agree Example.always Example.started
           (Example.query "get" "") None None ∅
           (mkDiscoInfo "" [] ["static.get_info"])).
  - reflexivity.
  - reflexivity.
  - vm_compute. reflexivity.
  - vm_compute. reflexivity.
Defined.
